(** * gt4py: build pipeline, module argument metadata, access analysis

    A shallow embedding of
    - [src/gt4py/build.py]: [BuildContext] and the [BuildStage] classes,
    - [src/gt4py/backend/module_generator.py]: [make_args_data_from_iir]
      and the [builder] property of [BaseModuleGenerator],
    - the access collector and the boundary resolver exercised by the unit
      tests under [tests/test_unittest].

    Python dictionaries with string keys are [gmap string _]; dictionaries
    whose insertion order is observable are association lists. Exceptions
    are the [Raise] case of [result]. Code that mutates the shared build
    context runs in a state-and-exception monad over that context. *)

From Stdlib Require Import ZArith.
From stdpp Require Import gmap strings list fin_maps.

#[local] Set Warnings "-register-all".
#[local] Open Scope string_scope.

(** ** Python values and exceptions *)

(** The values that the build context stores. [VObj] stands for any object
    without a container protocol of its own (a definition function, a
    frontend, a backend, an options record, an IR tree); the handle tells
    such objects apart. *)
Inductive Value : Type :=
  | VNone
  | VBool (b : bool)
  | VStr (s : string)
  | VList (l : list Value)
  | VDict (d : gmap string Value)
  | VObj (handle : N).

Inductive exn : Type :=
  | KeyError (key : string)
  | TypeError
  | AttributeError
  | RuntimeError (msg : string)
  | CollaboratorError (code : N).

Inductive result (A : Type) : Type :=
  | Ok (a : A)
  | Raise (e : exn).
Arguments Ok {A} a.
Arguments Raise {A} e.

Definition is_none (v : Value) : bool :=
  match v with VNone => true | _ => false end.

Definition is_str (k : string) (v : Value) : bool :=
  match v with VStr s => String.eqb k s | _ => false end.

(** Python truth value: [None], [False], and empty strings, lists and
    dictionaries are falsy. *)
Definition truthy (v : Value) : bool :=
  match v with
  | VNone => false
  | VBool b => b
  | VStr s => negb (String.eqb s "")
  | VList l => match l with [] => false | _ :: _ => true end
  | VDict d => negb (Nat.eqb (size d) 0)
  | VObj _ => true
  end.

Fixpoint is_substring (p s : string) : bool :=
  String.prefix p s ||
  match s with
  | EmptyString => false
  | String _ s' => is_substring p s'
  end.

(** [k in v] for a string [k]. *)
Definition value_contains (k : string) (v : Value) : result bool :=
  match v with
  | VDict d => Ok (bool_decide (is_Some (d !! k)))
  | VList l => Ok (existsb (is_str k) l)
  | VStr s => Ok (is_substring k s)
  | _ => Raise TypeError
  end.

(** [v.get(k, dflt)] *)
Definition value_get (v : Value) (k : string) (dflt : Value) : result Value :=
  match v with
  | VDict d => Ok (default dflt (d !! k))
  | _ => Raise AttributeError
  end.

(** [v[k] = x], giving the container after the update. *)
Definition value_setitem (v : Value) (k : string) (x : Value) : result Value :=
  match v with
  | VDict d => Ok (VDict (<[k:=x]> d))
  | _ => Raise TypeError
  end.

(** [v.pop(k)], giving the removed value and the container after the
    removal. *)
Definition value_pop (v : Value) (k : string) : result (Value * Value) :=
  match v with
  | VDict d =>
      match d !! k with
      | Some x => Ok (x, VDict (delete k d))
      | None => Raise (KeyError k)
      end
  | VList _ => Raise TypeError
  | _ => Raise AttributeError
  end.

(** ** [build.py]: the build context and the stage classes *)

Module Build.

(** The methods of the frontend and the backend, the generator classes and
    the module-level functions of [gt4py] that the stages call. Each is a
    function of its arguments; a call may raise. The object a method is
    called on is its first argument.

    In [obj.method(args)] Python looks [method] up on [obj] before it
    evaluates [args], and an object without the attribute raises there.
    [getattr] is this lookup for the frontend and the backend, which are
    values of the context; the field named like the method is the call of
    what the lookup returned. Where nothing is evaluated between the
    lookup and the call ([options.as_dict()], [backend.GENERATOR_CLASS]
    with arguments that are local names) the field of the call stands for
    both. The functions of the [gt4py] modules are names of the program,
    and their lookup is part of the call. *)
Record Collaborators : Type := {
  (* obj.name for a method or a class of obj that is then called *)
  getattr : Value → string → result unit;
  (* definition.__module__ with the default of getattr, definition.__name__ *)
  getattr_module : Value → Value;
  attr_name : Value → result Value;
  (* gt4py.definitions.BuildOptions(name=, module=, build_info=) *)
  BuildOptions : Value → Value → Value → result Value;
  (* format(v), as used by f-strings *)
  py_format : Value → string;
  (* backend.get_options_id(options) *)
  get_options_id : Value → Value → result Value;
  (* frontend.get_stencil_id(qualified_name=, definition=, externals=, options_id=) *)
  get_stencil_id : Value → Value → Value → Value → Value → result Value;
  (* frontend.generate(definition=, externals=, options=) *)
  generate : Value → Value → Value → Value → result Value;
  (* backend._check_options(options) *)
  _check_options : Value → Value → result unit;
  (* gt4py.analysis.transform(definition_ir=, options=) *)
  transform : Value → Value → result Value;
  (* backend.BINDINGS_LANGUAGES, backend.SRC_EXTENSION, backend._CPU_ARCHITECTURE *)
  BINDINGS_LANGUAGES : Value → result Value;
  SRC_EXTENSION : Value → result Value;
  _CPU_ARCHITECTURE : Value → result Value;
  (* backend.get_pyext_class_name(id), backend.get_pyext_module_name(id) *)
  get_pyext_class_name : Value → Value → result Value;
  get_pyext_module_name : Value → Value → result Value;
  (* backend.PYEXT_GENERATOR_CLASS(class_name, module_name, arch, options)
     and the call generator(iir) of the object it returns *)
  PYEXT_GENERATOR_CLASS : Value → Value → Value → Value → Value → result Value;
  call_pyext_generator : Value → Value → result Value;
  (* options.as_dict() *)
  as_dict : Value → result Value;
  (* backend.GENERATOR_CLASS(backend, options=) and the call
     generator(id, iir) of the object it returns *)
  GENERATOR_CLASS : Value → Value → result Value;
  call_generator : Value → Value → Value → result Value
}.

(** *** The state-and-exception monad over [BuildContext._data] *)

Definition M (A : Type) : Type := gmap string Value → result A * gmap string Value.

Definition ret {A} (a : A) : M A := λ ctx, (Ok a, ctx).

Definition bind {A B} (c : M A) (k : A → M B) : M B :=
  λ ctx, match c ctx with
         | (Ok a, ctx') => k a ctx'
         | (Raise e, ctx') => (Raise e, ctx')
         end.

Definition lift {A} (r : result A) : M A := λ ctx, (r, ctx).

Definition when (b : bool) (c : M unit) : M unit := if b then c else ret tt.

Notation "'let*' x ':=' c 'in' k" := (bind c (λ x, k))
  (at level 10, x name, c at level 100, k at level 200).
Notation "c ';;' k" := (bind c (λ _, k))
  (at level 100, k at level 200, right associativity).

(** *** class BuildContext *)

(** [BuildContext.__getitem__] *)
Definition getitem (key : string) : M Value :=
  λ ctx, match ctx !! key with
         | Some v => (Ok v, ctx)
         | None => (Raise (KeyError key), ctx)
         end.

(** [BuildContext.get] *)
Definition get (key : string) (dflt : Value) : M Value :=
  λ ctx, (Ok (default dflt (ctx !! key)), ctx).

(** [BuildContext.__setitem__] *)
Definition setitem (key : string) (value : Value) : M unit :=
  λ ctx, (Ok tt, <[key:=value]> ctx).

(** [BuildContext.pop] *)
Definition pop (key : string) (dflt : Value) : M Value :=
  λ ctx, (Ok (default dflt (ctx !! key)), delete key ctx).

(** [BuildContext.update] *)
Definition update (data : gmap string Value) : M unit :=
  λ ctx, (Ok tt, data ∪ ctx).

(** [BuildContext._set_no_replace] *)
Definition _set_no_replace (key : string) (value : Value) : M unit :=
  λ ctx, match ctx !! key with
         | Some _ => (Ok tt, ctx)
         | None => (Ok tt, <[key:=value]> ctx)
         end.

Section WithCollaborators.
Context (C : Collaborators).

(** The body of [BuildContext.__init__] after [self._data] has been filled
    from the keyword arguments. *)
Definition BuildContext_init_body (definition : Value) : M unit :=
  setitem "definition" definition ;;
  _set_no_replace "module" (getattr_module C definition) ;;
  let* n := lift (attr_name C definition) in
  _set_no_replace "name" n ;;
  _set_no_replace "externals" (VDict ∅) ;;
  let* m := getitem "module" in
  let* n := getitem "name" in
  _set_no_replace "qualified_name" (VStr (py_format C m ++ "." ++ py_format C n)) ;;
  _set_no_replace "build_info" (VDict ∅) ;;
  let* n := getitem "name" in
  let* m := getitem "module" in
  let* bi := getitem "build_info" in
  let* o := lift (BuildOptions C n m bi) in
  _set_no_replace "options" o.

(** [BuildContext(definition, **kwargs)]: the [_data] of the new context.
    Python refuses a keyword argument named like a positional parameter. *)
Definition BuildContext_init (definition : Value) (kwargs : gmap string Value)
    : result (gmap string Value) :=
  if bool_decide (is_Some (kwargs !! "definition")) || bool_decide (is_Some (kwargs !! "self"))
  then Raise TypeError
  else
    let data := omap (λ v, if is_none v then None else Some v) kwargs in
    match BuildContext_init_body definition data with
    | (Ok _, ctx) => Ok ctx
    | (Raise e, _) => Raise e
    end.

(** *** The stage classes *)

(** A stage object is its class together with the context [self.ctx], which
    all stages of one build share: it is the state of [M]. *)
Inductive Stage : Type :=
  | BeginStage | IRStage | IIRStage | SourceStage | BindingsStage.

(** [BeginStage._make]: only logs. *)
Definition BeginStage__make : M unit := ret tt.

(** [IRStage._make] *)
Definition IRStage__make : M unit :=
  let* frontend := getitem "frontend" in
  let* backend := getitem "backend" in
  lift (getattr C backend "get_options_id") ;;
  let* options := getitem "options" in
  let* options_id := lift (get_options_id C backend options) in
  setitem "options_id" options_id ;;
  lift (getattr C frontend "get_stencil_id") ;;
  let* qualified_name := getitem "qualified_name" in
  let* definition := getitem "definition" in
  let* externals := getitem "externals" in
  let* options_id := getitem "options_id" in
  let* id := lift (get_stencil_id C frontend qualified_name definition externals options_id) in
  setitem "id" id ;;
  lift (getattr C frontend "generate") ;;
  let* definition := getitem "definition" in
  let* externals := getitem "externals" in
  let* options := getitem "options" in
  let* ir := lift (generate C frontend definition externals options) in
  setitem "ir" ir.

(** [IIRStage._make] *)
Definition IIRStage__make : M unit :=
  let* backend := getitem "backend" in
  lift (getattr C backend "_check_options") ;;
  let* options := getitem "options" in
  lift (_check_options C backend options) ;;
  let* ir := getitem "ir" in
  let* options := getitem "options" in
  let* iir := lift (transform C ir options) in
  setitem "iir" iir.

(** [SourceStage._make_lang_src]. The class [PYEXT_GENERATOR_CLASS] is
    looked up before its arguments are evaluated, and each method before
    its own. In [a[k] = e] Python evaluates [e] before [a] and [k].

    The dictionaries held under ["src"] and ["bindings_src"] are changed
    in place: the changed dictionary is written back under the key that
    refers to it. The context holds its values by value, so a second key
    that refers to the same dictionary object is not followed: what the
    properties say about the keys that no stage assigns is said of values
    that hold no dictionary. *)
Definition SourceStage__make_lang_src : M unit :=
  let* backend := getitem "backend" in
  lift (getattr C backend "PYEXT_GENERATOR_CLASS") ;;
  lift (getattr C backend "get_pyext_class_name") ;;
  let* id := getitem "id" in
  let* class_name := lift (get_pyext_class_name C backend id) in
  lift (getattr C backend "get_pyext_module_name") ;;
  let* id := getitem "id" in
  let* module_name := lift (get_pyext_module_name C backend id) in
  let* arch := lift (_CPU_ARCHITECTURE C backend) in
  let* options := getitem "options" in
  let* generator := lift (PYEXT_GENERATOR_CLASS C backend class_name module_name arch options) in
  let* iir := getitem "iir" in
  let* src := lift (call_pyext_generator C generator iir) in
  setitem "src" src ;;
  let* src := getitem "src" in
  let* has_computation := lift (value_contains "computation.src" src) in
  when has_computation (
    let* src := getitem "src" in
    let* popped := lift (value_pop src "computation.src") in
    let computation := popped.1 in
    setitem "src" popped.2 ;;
    let* src := getitem "src" in
    let* ext := lift (SRC_EXTENSION C backend) in
    let* src := lift (value_setitem src ("computation." ++ py_format C ext) computation) in
    setitem "src" src) ;;
  let* src := getitem "src" in
  let* has_bindings := lift (value_contains "bindings.cpp" src) in
  when has_bindings (
    let* bindings_src := get "bindings_src" (VDict ∅) in
    setitem "bindings_src" bindings_src ;;
    let* src := getitem "src" in
    let* popped := lift (value_pop src "bindings.cpp") in
    let bindings := popped.1 in
    setitem "src" popped.2 ;;
    let* bindings_src := getitem "bindings_src" in
    let* bindings_src := lift (value_setitem bindings_src "bindings.cpp" bindings) in
    setitem "bindings_src" bindings_src).

(** [SourceStage._make_py_module] *)
Definition SourceStage__make_py_module : M unit :=
  let* backend := getitem "backend" in
  let* options := getitem "options" in
  let* generator_options := lift (as_dict C options) in
  let* generator := lift (GENERATOR_CLASS C backend generator_options) in
  setitem "generator_options" generator_options ;;
  let* name := getitem "name" in
  let* id := getitem "id" in
  let* iir := getitem "iir" in
  let* module := lift (call_generator C generator id iir) in
  setitem "src" (VDict {[ py_format C name ++ ".py" := module ]}).

(** [SourceStage._make] *)
Definition SourceStage__make : M unit :=
  let* backend := getitem "backend" in
  let* languages := lift (BINDINGS_LANGUAGES C backend) in
  if negb (truthy languages) then SourceStage__make_py_module
  else SourceStage__make_lang_src.

(** [BindingsStage._make]. The two [print] calls write to standard output
    and do not touch the context. *)
Definition BindingsStage__make : M unit :=
  let* bindings := getitem "bindings" in
  let* has_python := lift (value_contains "python" bindings) in
  when has_python (
    let* backend := getitem "backend" in
    let* options := getitem "options" in
    let* generator_options := lift (as_dict C options) in
    let* name := getitem "name" in
    let* pyext_module_name := get "pyext_module_name" (VStr ("_" ++ py_format C name)) in
    let* generator_options :=
      lift (value_setitem generator_options "pyext_module_name" pyext_module_name) in
    let* pyext_file_path := getitem "pyext_file_path" in
    let* generator_options :=
      lift (value_setitem generator_options "pyext_file_path" pyext_file_path) in
    setitem "generator_options" generator_options ;;
    let* generator := lift (GENERATOR_CLASS C backend generator_options) in
    let* old_bindings_src := get "bindings_src" (VDict ∅) in
    let* cpp := lift (value_get old_bindings_src "bindings.cpp" (VStr "")) in
    let* name := getitem "name" in
    let* id := getitem "id" in
    let* iir := getitem "iir" in
    let* module := lift (call_generator C generator id iir) in
    let python := VDict (<[ py_format C name ++ ".py" := module ]> {[ "bindings.cpp" := cpp ]}) in
    setitem "bindings_src" (VDict {[ "python" := python ]})).

(** [BuildStage._make], dispatched on the class of the stage. *)
Definition _make (self : Stage) : M unit :=
  match self with
  | BeginStage => BeginStage__make
  | IRStage => IRStage__make
  | IIRStage => IIRStage__make
  | SourceStage => SourceStage__make
  | BindingsStage => BindingsStage__make
  end.

(** [BuildStage.make] *)
Definition make (self : Stage) : M Stage :=
  _make self ;; ret self.

(** [next_stage] of each class; [BindingsStage.next_stage] returns [None]. *)
Definition next_stage (self : Stage) : option Stage :=
  match self with
  | BeginStage => Some IRStage
  | IRStage => Some IIRStage
  | IIRStage => Some SourceStage
  | SourceStage => Some BindingsStage
  | BindingsStage => None
  end.

(** [SourceStage.is_final]: [and] evaluates its right operand only when the
    left one is truthy. *)
Definition SourceStage_is_final : M bool :=
  let* backend := getitem "backend" in
  let* languages := lift (BINDINGS_LANGUAGES C backend) in
  if truthy languages then
    let* bindings := get "bindings" VNone in
    if truthy bindings then ret false else ret true
  else ret true.

(** [is_final]: [BuildStage.is_final] unless the class overrides it. *)
Definition is_final (self : Stage) : M bool :=
  match self with
  | SourceStage => SourceStage_is_final
  | BindingsStage => ret true
  | _ => ret false
  end.

(** [BuildStage.make_next]: the next stage object, made, or [None] at a
    final stage. Calling the [None] that [next_stage] returned would be a
    [TypeError]. *)
Definition make_next (self : Stage) : M (option Stage) :=
  let* final := is_final self in
  if final then ret None
  else match next_stage self with
       | Some cls => let* nxt := make cls in ret (Some nxt)
       | None => lift (Raise TypeError)
       end.

(** A build driven from a stage: call [make_next] on the current stage
    until it returns [None] or raises, at most [fuel] times. The result
    lists the stage objects obtained, the first one included. *)
Inductive Outcome : Type :=
  | Finished
  | Aborted (e : exn)
  | Running.

Fixpoint run_pipeline (fuel : nat) (self : Stage) (ctx : gmap string Value)
    : list Stage * Outcome * gmap string Value :=
  match fuel with
  | O => ([self], Running, ctx)
  | S fuel' =>
      match make_next self ctx with
      | (Ok None, ctx') => ([self], Finished, ctx')
      | (Ok (Some nxt), ctx') =>
          let '(trace, outcome, ctx'') := run_pipeline fuel' nxt ctx' in
          (self :: trace, outcome, ctx'')
      | (Raise e, ctx') => ([self], Aborted e, ctx')
      end
  end.

End WithCollaborators.

(** *** Vocabulary for what the stages change *)

(** A computation that only moves the context along a relation. *)
Definition respects {A} (R : relation (gmap string Value)) (c : M A) : Prop :=
  ∀ ctx, R ctx (c ctx).2.

(** The keys that some stage assigns. *)
Definition stage_written_keys : list string :=
  ["options_id"; "id"; "ir"; "iir"; "generator_options"; "src"; "bindings_src"].

(** Two contexts of the model of which the second has every key of the
    first, with the same value under every key that no stage assigns. *)
Definition frames (ctx ctx' : gmap string Value) : Prop :=
  (∀ key, key ∉ stage_written_keys → ctx' !! key = ctx !! key) ∧ dom ctx ⊆ dom ctx'.

(** A value that holds no dictionary, neither itself nor inside a list: a
    string, a number-like object, a list of strings. The stages change
    dictionaries in place, and a dictionary object may be referred to
    from several places; a value without a dictionary is not reached by
    such a change. *)
Fixpoint holds_no_dict (v : Value) : bool :=
  match v with
  | VDict _ => false
  | VList l => forallb holds_no_dict l
  | _ => true
  end.

(** The ["bindings.cpp"] source inside the value that [BindingsStage]
    stores under ["bindings_src"]. *)
Definition bindings_cpp_of (bindings_src : Value) : Value :=
  match bindings_src with
  | VDict d =>
      match default VNone (d !! "python") with
      | VDict python => default VNone (python !! "bindings.cpp")
      | _ => VNone
      end
  | _ => VNone
  end.

(** *** Vocabulary for re-running [BindingsStage] *)

(** Whether ["python"] is among the requested bindings, and the
    ["bindings.cpp"] source that the context carries under
    ["bindings_src"] (the empty string if it carries none). *)
Definition python_requested (ctx : gmap string Value) : bool :=
  match ctx !! "bindings" with
  | Some bindings =>
      match value_contains "python" bindings with
      | Ok b => b
      | Raise _ => false
      end
  | None => false
  end.

Definition carried_bindings_cpp (ctx : gmap string Value) : Value :=
  match ctx !! "bindings_src" with
  | Some (VDict d) => default (VStr "") (d !! "bindings.cpp")
  | _ => VStr ""
  end.

(** *** Vocabulary for the sources that [SourceStage] routes *)

(** The generated files after the computation source has been renamed to
    the extension of the backend. *)
Definition route_computation (ext : string) (d : gmap string Value) : gmap string Value :=
  match d !! "computation.src" with
  | Some computation => <["computation." ++ ext := computation]> (delete "computation.src" d)
  | None => d
  end.

End Build.

(** ** [backend/module_generator.py] *)

Module ModuleGenerator.

(** [gt4py.definitions.AccessKind] *)
Module AccessKind.
Inductive t : Type := READ_ONLY | READ_WRITE.
End AccessKind.

(** [gt_ir.AccessIntent] *)
Module AccessIntent.
Inductive t : Type := READ_ONLY | READ_WRITE.
End AccessIntent.

(** A dictionary whose insertion order is observable: assigning to a new
    key appends an entry, assigning to an existing key replaces its value
    where it stands. *)
Fixpoint dict_set {V} (d : list (string * V)) (key : string) (v : V) : list (string * V) :=
  match d with
  | [] => [(key, v)]
  | (k, x) :: d' => if String.eqb k key then (k, v) :: d' else (k, x) :: dict_set d' key v
  end.

Fixpoint dict_lookup {V} (d : list (string * V)) (key : string) : option V :=
  match d with
  | [] => None
  | (k, x) :: d' => if String.eqb k key then Some x else dict_lookup d' key
  end.

(** [d.keys()] *)
Definition dict_keys {V} (d : list (string * V)) : list string := d.*1.

Section WithIR.
(** The node types of [gt_ir] and of [gt4py.definitions] that this module
    only passes through, and the two conversions it applies to them:
    [Extent.to_boundary()] and [DataType.dtype]. *)
Context {Extent Boundary Axes DataType Dtype StencilBuilder : Type}.
Context (to_boundary : Extent → Boundary) (dtype_of : DataType → Dtype).

Record FieldDecl : Type := { fd_axes : Axes; fd_data_type : DataType }.
Record VarDecl : Type := { vd_data_type : DataType }.
Record ArgumentInfo : Type := { name : string; is_keyword : bool }.

Inductive Accessor : Type :=
  | FieldAccessor (symbol : string) (intent : AccessIntent.t) (extent : Extent)
  | ParameterAccessor (symbol : string).

Record Stage : Type := { accessors : list Accessor }.
Record StageGroup : Type := { stages : list Stage }.
Record MultiStage : Type := { groups : list StageGroup }.

Record StencilImplementation : Type := {
  multi_stages : list MultiStage;
  api_signature : list ArgumentInfo;
  fields : gmap string FieldDecl;
  parameters : gmap string VarDecl;
  fields_extents : gmap string Extent;
  unreferenced : gset string
}.

Record FieldInfo : Type := {
  access : AccessKind.t;
  boundary : Boundary;
  axes : Axes;
  fi_dtype : Dtype
}.
Record ParameterInfo : Type := { pi_dtype : Dtype }.

Record ModuleData : Type := {
  field_info : list (string * option FieldInfo);
  parameter_info : list (string * option ParameterInfo);
  md_unreferenced : gset string
}.

(** [ModuleData()] *)
Definition ModuleData_default : ModuleData :=
  {| field_info := []; parameter_info := []; md_unreferenced := ∅ |}.

(** [ModuleData.field_names], [ModuleData.parameter_names] *)
Definition field_names (self : ModuleData) : list string := dict_keys (field_info self).
Definition parameter_names (self : ModuleData) : list string := dict_keys (parameter_info self).

(** The first loop nest of [make_args_data_from_iir]: the symbols of the
    field accessors whose intent is [READ_WRITE]. *)
Definition add_out_field (out_fields : gset string) (acc : Accessor) : gset string :=
  match acc with
  | FieldAccessor symbol AccessIntent.READ_WRITE _ => {[ symbol ]} ∪ out_fields
  | _ => out_fields
  end.

Definition collect_out_fields (implementation_ir : StencilImplementation) : gset string :=
  foldl (λ out ms,
    foldl (λ out sg,
      foldl (λ out st, foldl add_out_field out (accessors st)) out (stages sg))
      out (groups ms))
    ∅ (multi_stages implementation_ir).

(** [d[key]] of a dictionary. *)
Definition subscript {V} (d : gmap string V) (key : string) : result V :=
  match d !! key with
  | Some v => Ok v
  | None => Raise (KeyError key)
  end.

(** The value that the loop over [api_signature] gives to [access] for an
    argument that is a field. *)
Definition access_kind_of (out_fields : gset string) (arg : ArgumentInfo) : AccessKind.t :=
  if bool_decide (name arg ∈ out_fields) then AccessKind.READ_WRITE
  else AccessKind.READ_ONLY.

(** One iteration of the loop over [api_signature]. *)
Definition record_arg (implementation_ir : StencilImplementation) (out_fields : gset string)
    (data : ModuleData) (arg : ArgumentInfo) : result ModuleData :=
  if bool_decide (is_Some (fields implementation_ir !! name arg)) then
    let access := access_kind_of out_fields arg in
    if bool_decide (name arg ∉ unreferenced implementation_ir) then
      match subscript (fields implementation_ir) (name arg) with
      | Raise e => Raise e
      | Ok field_decl =>
          match subscript (fields_extents implementation_ir) (name arg) with
          | Raise e => Raise e
          | Ok extent =>
              let info := {| access := access;
                             boundary := to_boundary extent;
                             axes := fd_axes field_decl;
                             fi_dtype := dtype_of (fd_data_type field_decl) |} in
              Ok {| field_info := dict_set (field_info data) (name arg) (Some info);
                    parameter_info := parameter_info data;
                    md_unreferenced := md_unreferenced data |}
          end
      end
    else
      Ok {| field_info := dict_set (field_info data) (name arg) None;
            parameter_info := parameter_info data;
            md_unreferenced := md_unreferenced data |}
  else
    if bool_decide (name arg ∉ unreferenced implementation_ir) then
      match subscript (parameters implementation_ir) (name arg) with
      | Raise e => Raise e
      | Ok decl =>
          let info := {| pi_dtype := dtype_of (vd_data_type decl) |} in
          Ok {| field_info := field_info data;
                parameter_info := dict_set (parameter_info data) (name arg) (Some info);
                md_unreferenced := md_unreferenced data |}
      end
    else
      Ok {| field_info := field_info data;
            parameter_info := dict_set (parameter_info data) (name arg) None;
            md_unreferenced := md_unreferenced data |}.

Fixpoint record_args (implementation_ir : StencilImplementation) (out_fields : gset string)
    (data : ModuleData) (args : list ArgumentInfo) : result ModuleData :=
  match args with
  | [] => Ok data
  | arg :: args' =>
      match record_arg implementation_ir out_fields data arg with
      | Ok data' => record_args implementation_ir out_fields data' args'
      | Raise e => Raise e
      end
  end.

(** [make_args_data_from_iir] *)
Definition make_args_data_from_iir (implementation_ir : StencilImplementation)
    : result ModuleData :=
  let out_fields := collect_out_fields implementation_ir in
  match record_args implementation_ir out_fields ModuleData_default
          (api_signature implementation_ir) with
  | Ok data =>
      Ok {| field_info := field_info data;
            parameter_info := parameter_info data;
            md_unreferenced := unreferenced implementation_ir |}
  | Raise e => Raise e
  end.

(** *** Vocabulary for the properties of [make_args_data_from_iir] *)

(** Some stage of the program has a field accessor for [field] whose
    intent is [READ_WRITE]. *)
Definition has_write_access (implementation_ir : StencilImplementation) (field : string) : Prop :=
  ∃ ms sg st extent,
    ms ∈ multi_stages implementation_ir ∧ sg ∈ groups ms ∧ st ∈ stages sg ∧
    FieldAccessor field AccessIntent.READ_WRITE extent ∈ accessors st.

(** Every referenced argument has the declaration that the function looks
    up: an extent for a field, a parameter declaration otherwise. *)
Definition declarations_complete (implementation_ir : StencilImplementation) : Prop :=
  ∀ arg, arg ∈ api_signature implementation_ir →
    name arg ∉ unreferenced implementation_ir →
    if bool_decide (is_Some (fields implementation_ir !! name arg))
    then is_Some (fields_extents implementation_ir !! name arg)
    else is_Some (parameters implementation_ir !! name arg).

(** A list of names without the repetitions of a name after its first
    occurrence. *)
Fixpoint first_occurrences (names : list string) : list string :=
  match names with
  | [] => []
  | n :: names' => n :: List.filter (λ m, negb (String.eqb m n)) (first_occurrences names')
  end.

(** The names of the arguments that are fields, and of those that are
    not, in the order of the signature. *)
Definition field_arg_names (implementation_ir : StencilImplementation)
    (args : list ArgumentInfo) : list string :=
  List.filter (λ n, bool_decide (is_Some (fields implementation_ir !! n))) (name <$> args).

Definition parameter_arg_names (implementation_ir : StencilImplementation)
    (args : list ArgumentInfo) : list string :=
  List.filter (λ n, negb (bool_decide (is_Some (fields implementation_ir !! n)))) (name <$> args).

(** The entry that the loop stores for a field name and for a parameter
    name. *)
Definition field_entry_ok (implementation_ir : StencilImplementation) (n : string)
    (e : option FieldInfo) : Prop :=
  if bool_decide (n ∈ unreferenced implementation_ir) then e = None
  else ∃ info, e = Some info ∧
         access info = (if bool_decide (n ∈ collect_out_fields implementation_ir)
                        then AccessKind.READ_WRITE else AccessKind.READ_ONLY).

Definition parameter_entry_ok (implementation_ir : StencilImplementation) (n : string)
    (e : option ParameterInfo) : Prop :=
  if bool_decide (n ∈ unreferenced implementation_ir) then e = None else is_Some e.

Definition entries_ok (implementation_ir : StencilImplementation) (data : ModuleData) : Prop :=
  (∀ n e, dict_lookup (field_info data) n = Some e → field_entry_ok implementation_ir n e) ∧
  (∀ n e, dict_lookup (parameter_info data) n = Some e →
          parameter_entry_ok implementation_ir n e).

(** The entries that the loop stores for a name when its lookups return. *)
Definition expected_field_info (implementation_ir : StencilImplementation)
    (n : string) : option FieldInfo :=
  if bool_decide (n ∈ unreferenced implementation_ir) then None
  else
    match fields implementation_ir !! n, fields_extents implementation_ir !! n with
    | Some decl, Some extent =>
        Some {| access := if bool_decide (n ∈ collect_out_fields implementation_ir)
                          then AccessKind.READ_WRITE else AccessKind.READ_ONLY;
                boundary := to_boundary extent;
                axes := fd_axes decl;
                fi_dtype := dtype_of (fd_data_type decl) |}
    | _, _ => None
    end.

Definition expected_parameter_info (implementation_ir : StencilImplementation)
    (n : string) : option ParameterInfo :=
  if bool_decide (n ∈ unreferenced implementation_ir) then None
  else
    match parameters implementation_ir !! n with
    | Some decl => Some {| pi_dtype := dtype_of (vd_data_type decl) |}
    | None => None
    end.

(** *** class BaseModuleGenerator *)

(** What the generator reads from a bound builder, and the rest of
    [__call__] once the class name is known: the remaining arguments of
    [template.render], the rendering and the optional formatting, all of
    which go through the bound builder. *)
Context (class_name : StencilBuilder → string).
Context (render_rest : ModuleData → StencilBuilder → string → result string).

(** The attributes that [__init__] sets, the template apart. *)
Record BaseModuleGenerator : Type := {
  _builder : option StencilBuilder;
  args_data : ModuleData
}.

(** [BaseModuleGenerator.__init__(builder=None)] *)
Definition BaseModuleGenerator_init (builder : option StencilBuilder) : BaseModuleGenerator :=
  {| _builder := builder; args_data := ModuleData_default |}.

(** The property [BaseModuleGenerator.builder] *)
Definition builder (self : BaseModuleGenerator) : result StencilBuilder :=
  match _builder self with
  | None => Raise (RuntimeError "Builder attribute not initialized!")
  | Some b => Ok b
  end.

(** [generate_imports], [generate_module_members], [generate_class_name]
    of the base class *)
Definition generate_imports (self : BaseModuleGenerator) : result string := Ok "".
Definition generate_module_members (self : BaseModuleGenerator) : result string := Ok "".
Definition generate_class_name (self : BaseModuleGenerator) : result string :=
  match builder self with
  | Ok b => Ok (class_name b)
  | Raise e => Raise e
  end.

(** [BaseModuleGenerator.__call__(args_data, builder=None)]: the generator
    after the call and the module source or the exception. The keyword
    arguments of [template.render] are evaluated in the order written:
    imports, module members, class name, then the rest. *)
Definition BaseModuleGenerator_call (self : BaseModuleGenerator) (data : ModuleData)
    (builder_arg : option StencilBuilder) : result string * BaseModuleGenerator :=
  let self1 :=
    match builder_arg with
    | Some b => {| _builder := Some b; args_data := args_data self |}
    | None => self
    end in
  let self2 := {| _builder := _builder self1; args_data := data |} in
  let module_source :=
    match generate_imports self2 with
    | Raise e => Raise e
    | Ok _ =>
        match generate_module_members self2 with
        | Raise e => Raise e
        | Ok _ =>
            match generate_class_name self2 with
            | Raise e => Raise e
            | Ok cls =>
                match builder self2 with
                | Raise e => Raise e
                | Ok b => render_rest (args_data self2) b cls
                end
            end
        end
    end in
  (module_source, self2).

(** *** [BaseModuleGenerator.generate_signature] *)

(** [arg.default] of an argument, formatted, or [None] when it is
    [gt_ir.Empty]; and [builder.definition_ir.api_signature]. *)
Context (arg_default : ArgumentInfo → option string).
Context (definition_api_signature : StencilBuilder → list ArgumentInfo).

(** The entry of one argument: ["{name}={default}"] when it has a default,
    the bare name otherwise (the same in both branches of the loop). *)
Definition signature_entry (arg : ArgumentInfo) : string :=
  match arg_default arg with
  | Some dflt => name arg ++ "=" ++ dflt
  | None => name arg
  end.

(** One iteration of the loop: the lists [args] and [keyword_args]. *)
Definition signature_step (lists : list string * list string) (arg : ArgumentInfo)
    : list string * list string :=
  if is_keyword arg then (lists.1, (lists.2 ++ [signature_entry arg])%list)
  else ((lists.1 ++ [signature_entry arg])%list, lists.2).

Definition generate_signature (self : BaseModuleGenerator) : result string :=
  match builder self with
  | Raise e => Raise e
  | Ok b =>
      let lists := foldl signature_step ([], ["*"]) (definition_api_signature b) in
      let args :=
        if Nat.ltb 1 (length lists.2) then (lists.1 ++ lists.2)%list else lists.1 in
      Ok (String.concat ", " args)
  end.

(** *** class PyExtModuleGenerator *)

(** What the extension generator reads from a bound builder: the names of
    [definition_ir.api_fields], the truth value of
    [implementation_ir.multi_stages], [implementation_ir.has_effect]; the
    text that a [TextBlock] gives for lines and for one string; and the
    rest of [BaseModuleGenerator.__call__] once the imports, the class
    name and the implementation are known. *)
Context (definition_api_fields : StencilBuilder → list string).
Context (has_multi_stages has_effect : StencilBuilder → bool).
Context (text_of_lines : list string → string) (text_of_string : string → string).
Context (render_module :
  ModuleData → StencilBuilder → string → string → string → result string).

Record PyExtModuleGenerator : Type := {
  base : BaseModuleGenerator;
  pyext_module_name : string;
  pyext_file_path : string
}.

(** [PyExtModuleGenerator.__init__()]: [super().__init__()] gets no
    builder. *)
Definition PyExtModuleGenerator_init : PyExtModuleGenerator :=
  {| base := BaseModuleGenerator_init None; pyext_module_name := ""; pyext_file_path := "" |}.

Definition newline : string := String (Ascii.ascii_of_nat 10) "".
Definition double_quote : string := String (Ascii.ascii_of_nat 34) "".

(** [PyExtModuleGenerator.generate_imports] *)
Definition PyExt_generate_imports (self : PyExtModuleGenerator) : result string :=
  let source := newline ++ "from gt4py import utils as gt_utils" ++ newline ++ "        " in
  match builder (base self) with
  | Raise e => Raise e
  | Ok b =>
      if has_multi_stages b then
        Ok (source ++ newline
            ++ "pyext_module = gt_utils.make_module_from_file(" ++ newline
            ++ "        " ++ double_quote ++ pyext_module_name self ++ double_quote ++ ", "
            ++ double_quote ++ pyext_file_path self ++ double_quote
            ++ ", public_import=True" ++ newline
            ++ "    )" ++ newline ++ "        ")
      else Ok source
  end.

(** The loop of [PyExtModuleGenerator.generate_implementation] that
    collects the arguments of [run_computation]. *)
Definition origin_entry (field : string) : string := "list(_origin_['" ++ field ++ "'])".

Definition run_args_step (unref : gset string) (api_fields : list string)
    (args : list string) (arg : ArgumentInfo) : list string :=
  if bool_decide (name arg ∉ unref) then
    let args := (args ++ [name arg])%list in
    if bool_decide (name arg ∈ api_fields) then (args ++ [origin_entry (name arg)])%list
    else args
  else args.

Definition run_args (unref : gset string) (api_fields : list string)
    (signature : list ArgumentInfo) : list string :=
  foldl (run_args_step unref api_fields) [] signature.

(** [PyExtModuleGenerator.generate_implementation] *)
Definition PyExt_generate_implementation (self : PyExtModuleGenerator) : result string :=
  match builder (base self) with
  | Raise e => Raise e
  | Ok b =>
      let args := run_args (md_unreferenced (args_data (base self)))
                    (definition_api_fields b) (definition_api_signature b) in
      if has_effect b then
        Ok (text_of_lines
              [ "";
                "# Load or generate a GTComputation object for the current domain size";
                "pyext_module.run_computation(list(_domain_), "
                  ++ String.concat ", " args ++ ", exec_info)" ])
      else Ok (text_of_string newline)
  end.

(** [PyExtModuleGenerator.__call__(args_data, builder=None, **kwargs)]:
    the two keyword arguments are read first, then
    [BaseModuleGenerator.__call__] runs with the methods of this class. *)
Definition PyExtModuleGenerator_call (self : PyExtModuleGenerator) (data : ModuleData)
    (builder_arg : option StencilBuilder) (kwargs : gmap string string)
    : result string * PyExtModuleGenerator :=
  match kwargs !! "pyext_module_name" with
  | None => (Raise (KeyError "pyext_module_name"), self)
  | Some module_name =>
      let self1 := {| base := base self; pyext_module_name := module_name;
                      pyext_file_path := pyext_file_path self |} in
      match kwargs !! "pyext_file_path" with
      | None => (Raise (KeyError "pyext_file_path"), self1)
      | Some file_path =>
          let base1 :=
            match builder_arg with
            | Some b => {| _builder := Some b; args_data := args_data (base self1) |}
            | None => base self1
            end in
          let base2 := {| _builder := _builder base1; args_data := data |} in
          let self2 := {| base := base2; pyext_module_name := module_name;
                          pyext_file_path := file_path |} in
          let module_source :=
            match PyExt_generate_imports self2 with
            | Raise e => Raise e
            | Ok imports =>
                match generate_class_name base2 with
                | Raise e => Raise e
                | Ok cls =>
                    match builder base2 with
                    | Raise e => Raise e
                    | Ok b =>
                        match PyExt_generate_implementation self2 with
                        | Raise e => Raise e
                        | Ok implementation =>
                            render_module data b imports cls implementation
                        end
                    end
                end
            end in
          (module_source, self2)
      end
  end.

End WithIR.
End ModuleGenerator.

(** ** The access collector and the boundary resolver

    The unit tests [test_access_collector] and [test_copy_shift] exercise
    [AccessCollector] and [FieldsMetadataPass]; the classes themselves are
    described by the specification of the analysis (data model, access
    collector, boundary/extent resolver). *)

Module Analysis.

#[local] Open Scope Z_scope.

(** Modelled from the spec: the data model of the analysis, which the
    tests build through [gtc.oir] and [gtir] node classes: a signed 3-axis
    offset (i, j, k), a field access, the right-hand expression tree, the
    assignment statement, the horizontal execution with its optional mask,
    the vertical interval with its bounds, the vertical loop and the
    stencil program. *)
Definition Offset : Type := Z * Z * Z.

Record FieldAccess : Type := { name : string; offset : Offset }.

Inductive Expr : Type :=
  | FieldAccessExpr (acc : FieldAccess)
  | Literal (value : string)
  | UnaryOp (op : string) (expr : Expr)
  | BinaryOp (op : string) (lhs rhs : Expr).

Record AssignStmt : Type := { left : string; right : Expr }.

Record HorizontalExecution : Type := {
  body : list AssignStmt;
  mask : option FieldAccess
}.

Inductive LevelMarker : Type := START | END.
Record AxisBound : Type := { level : LevelMarker; bound_offset : Z }.
Inductive LoopOrder : Type := FORWARD | BACKWARD | PARALLEL.

Record VerticalInterval : Type := {
  interval_start : AxisBound;
  interval_end : AxisBound;
  horizontal_executions : list HorizontalExecution
}.

Record VerticalLoop : Type := {
  loop_order : LoopOrder;
  vertical_intervals : list VerticalInterval
}.

Record StencilProgram : Type := { vertical_loops : list VerticalLoop }.

(** Modelled from the spec: [AccessCollector.Result], a mapping from field
    name to the set of read offsets and one to the set of write offsets. *)
Record Result : Type := {
  reads : gmap string (gset Offset);
  writes : gmap string (gset Offset)
}.

(** Modelled from the spec: the derived [accesses] property of
    [AccessCollector.Result], per field the union of both sets. *)
Definition accesses (res : Result) : gmap string (gset Offset) :=
  union_with (λ r w, Some (r ∪ w)) (reads res) (writes res).

(** Modelled from the spec: recording one access of [AccessCollector];
    offsets accumulate into per-field sets and duplicates collapse. *)
Definition add_offset (m : gmap string (gset Offset)) (field : string) (o : Offset)
    : gmap string (gset Offset) :=
  <[ field := {[ o ]} ∪ default ∅ (m !! field) ]> m.

Definition record_read (acc : FieldAccess) (res : Result) : Result :=
  {| reads := add_offset (reads res) (name acc) (offset acc); writes := writes res |}.

Definition record_write (field : string) (res : Result) : Result :=
  {| reads := reads res; writes := add_offset (writes res) field (0, 0, 0) |}.

(** Modelled from the spec: the traversal of [AccessCollector]: a write of
    the left-hand field at offset (0,0,0) and a read for every field
    access of the right-hand expression for each statement, a read of the
    mask for a horizontal execution that carries one, over every vertical
    loop, interval and horizontal execution. *)
Fixpoint collect_expr (e : Expr) (res : Result) : Result :=
  match e with
  | FieldAccessExpr acc => record_read acc res
  | Literal _ => res
  | UnaryOp _ e' => collect_expr e' res
  | BinaryOp _ l r => collect_expr r (collect_expr l res)
  end.

Definition collect_stmt (res : Result) (stmt : AssignStmt) : Result :=
  collect_expr (right stmt) (record_write (left stmt) res).

Definition collect_horizontal_execution (res : Result) (he : HorizontalExecution) : Result :=
  let res' := foldl collect_stmt res (body he) in
  match mask he with
  | Some acc => record_read acc res'
  | None => res'
  end.

Definition collect_interval (res : Result) (vi : VerticalInterval) : Result :=
  foldl collect_horizontal_execution res (horizontal_executions vi).

Definition collect_loop (res : Result) (vl : VerticalLoop) : Result :=
  foldl collect_interval res (vertical_intervals vl).

(** Modelled from the spec: [AccessCollector.apply]. *)
Definition AccessCollector_apply (program : StencilProgram) : Result :=
  foldl collect_loop {| reads := ∅; writes := ∅ |} (vertical_loops program).

(** Modelled from the spec: [FieldBoundary], per axis the pair
    (margin_before, margin_after). *)
Record FieldBoundary : Type := { i : Z * Z; j : Z * Z; k : Z * Z }.

Inductive Axis : Type := I | J | K.

Definition component (ax : Axis) (o : Offset) : Z :=
  match ax with I => o.1.1 | J => o.1.2 | K => o.2 end.

Definition margins (ax : Axis) (b : FieldBoundary) : Z * Z :=
  match ax with I => i b | J => j b | K => k b end.

(** Modelled from the spec: the scan of the boundary/extent resolver (the
    [FieldsMetadataPass] of the test): for each field and each axis every
    recorded offset, reads and writes together, widens the margin it
    sticks out of; a field starts from (0,0) on every axis. *)
Definition widen (m : Z * Z) (o : Z) : Z * Z := (Z.max m.1 (- o), Z.max m.2 o).

Definition scan_offset (o : Offset) (b : FieldBoundary) : FieldBoundary :=
  {| i := widen (i b) (component I o);
     j := widen (j b) (component J o);
     k := widen (k b) (component K o) |}.

Definition zero_boundary : FieldBoundary := {| i := (0, 0); j := (0, 0); k := (0, 0) |}.

Definition boundary_of_offsets (offsets : gset Offset) : FieldBoundary :=
  set_fold scan_offset zero_boundary offsets.

(** Modelled from the spec: the boundary the resolver computes for a field
    from the result of the access collector; a field without recorded
    offsets has (0,0) on every axis. *)
Definition field_boundary (res : Result) (field : string) : FieldBoundary :=
  boundary_of_offsets (default ∅ (accesses res !! field)).

(** Modelled from the spec: [FieldsMetadataPass] applied to a program. *)
Definition FieldsMetadataPass (program : StencilProgram) (field : string) : FieldBoundary :=
  field_boundary (AccessCollector_apply program) field.

(** *** The programs of the unit tests *)

Definition whole_column : AxisBound * AxisBound :=
  ({| level := START; bound_offset := 0 |}, {| level := END; bound_offset := 0 |}).

(** [AssignStmtBuilder(left, right, offset)] *)
Definition assign (target source : string) (o : Offset) : AssignStmt :=
  {| left := target; right := FieldAccessExpr {| name := source; offset := o |} |}.

(** The stencil of [test_access_collector]: one vertical loop with two
    horizontal executions, the second one masked. *)
Definition access_collector_testee : StencilProgram :=
  {| vertical_loops :=
       [ {| loop_order := FORWARD;
            vertical_intervals :=
              [ {| interval_start := whole_column.1;
                   interval_end := whole_column.2;
                   horizontal_executions :=
                     [ {| body := [ assign "tmp" "foo" (1, 0, 0);
                                    assign "bar" "tmp" (0, 0, 0) ];
                          mask := None |};
                       {| body := [ assign "baz" "tmp" (0, 1, 0) ];
                          mask := Some {| name := "mask"; offset := (-1, -1, 1) |} |} ]
                |} ]
         |} ]
  |}.

(** [expected] of [test_access_collector] *)
Definition access_collector_expected : Result :=
  {| reads := {[ "tmp" := {[ (0, 0, 0); (0, 1, 0) ]};
                 "foo" := {[ (1, 0, 0) ]};
                 "mask" := {[ (-1, -1, 1) ]} ]};
     writes := {[ "tmp" := {[ (0, 0, 0) ]};
                  "bar" := {[ (0, 0, 0) ]};
                  "baz" := {[ (0, 0, 0) ]} ]} |}.

(** The computation of [test_copy_shift]: [a = b[offset]] in one forward
    vertical loop over the whole column. *)
Definition copy_shift (o : Offset) : StencilProgram :=
  {| vertical_loops :=
       [ {| loop_order := FORWARD;
            vertical_intervals :=
              [ {| interval_start := whole_column.1;
                   interval_end := whole_column.2;
                   horizontal_executions :=
                     [ {| body := [ assign "a" "b" o ]; mask := None |} ]
                |} ]
         |} ]
  |}.

(** The least and the greatest offset observed on an axis. *)
Definition is_min_offset (ax : Axis) (offsets : gset Offset) (lo : Z) : Prop :=
  (∃ o, o ∈ offsets ∧ component ax o = lo) ∧ ∀ o, o ∈ offsets → lo ≤ component ax o.

Definition is_max_offset (ax : Axis) (offsets : gset Offset) (hi : Z) : Prop :=
  (∃ o, o ∈ offsets ∧ component ax o = hi) ∧ ∀ o, o ∈ offsets → component ax o ≤ hi.

(** What the scan knows about one margin pair after the offsets [X]: both
    margins are non-negative, cover every offset of [X], and are 0 or
    attained by an offset of [X]. *)
Definition margin_invariant (ax : Axis) (X : gset Offset) (m : Z * Z) : Prop :=
  (0 ≤ m.1 ∧ (∀ o, o ∈ X → - component ax o ≤ m.1) ∧
     (m.1 = 0 ∨ ∃ o, o ∈ X ∧ m.1 = - component ax o)) ∧
  (0 ≤ m.2 ∧ (∀ o, o ∈ X → component ax o ≤ m.2) ∧
     (m.2 = 0 ∨ ∃ o, o ∈ X ∧ m.2 = component ax o)).

End Analysis.

(** ** Concrete inputs *)

Module Examples.
Import Build ModuleGenerator.

(** Collaborators of a backend with Python bindings: every call returns,
    and the extension generator produces a computation source and a
    bindings source. Only an object has methods: [None], a string or a
    container in the place of the frontend or backend raises
    [AttributeError]. *)
Definition demo : Collaborators := {|
  getattr := λ obj _, match obj with VObj _ => Ok tt | _ => Raise AttributeError end;
  getattr_module := λ _, VStr "stencils";
  attr_name := λ _, Ok (VStr "copy_stencil");
  BuildOptions := λ _ _ _, Ok (VObj 10);
  py_format := λ v, match v with VStr s => s | _ => "<object>" end;
  get_options_id := λ _ _, Ok (VStr "opts");
  get_stencil_id := λ _ _ _ _ _, Ok (VStr "stencil_id");
  generate := λ _ _ _ _, Ok (VObj 20);
  _check_options := λ _ _, Ok tt;
  transform := λ _ _, Ok (VObj 30);
  BINDINGS_LANGUAGES := λ _, Ok (VList [VStr "python"]);
  SRC_EXTENSION := λ _, Ok (VStr "cpp");
  _CPU_ARCHITECTURE := λ _, Ok (VStr "x86");
  get_pyext_class_name := λ _ _, Ok (VStr "copy_stencil_pyext");
  get_pyext_module_name := λ _ _, Ok (VStr "_copy_stencil");
  PYEXT_GENERATOR_CLASS := λ _ _ _ _ _, Ok (VObj 40);
  call_pyext_generator := λ _ _,
    Ok (VDict {[ "computation.src" := VStr "void run();";
                 "bindings.cpp" := VStr "PYBIND11_MODULE" ]});
  as_dict := λ _, Ok (VDict ∅);
  GENERATOR_CLASS := λ _ _, Ok (VObj 50);
  call_generator := λ _ _ _, Ok (VStr "import _copy_stencil")
|}.

(** [BuildContext(definition)]: a context built from the definition alone,
    and the keyword arguments of a full build request with Python
    bindings. *)
Definition definition_only : gmap string Value := ∅.

Definition request : gmap string Value :=
  {[ "frontend" := VObj 1; "backend" := VObj 2;
     "bindings" := VList [VStr "python"];
     "pyext_file_path" := VStr "/build/_copy_stencil.so" ]}.

(** The context of [BuildContext(definition)] under [demo]. *)
Definition bare_context : gmap string Value :=
  {[ "definition" := VObj 0; "module" := VStr "stencils"; "name" := VStr "copy_stencil";
     "externals" := VDict ∅; "qualified_name" := VStr "stencils.copy_stencil";
     "build_info" := VDict ∅; "options" := VObj 10 ]}.

(** A context as [SourceStage] leaves it for [BindingsStage]: the
    bindings source of the extension is under ["bindings_src"]. *)
Definition context_for_bindings : gmap string Value :=
  {[ "backend" := VObj 2; "bindings" := VList [VStr "python"];
     "options" := VObj 10; "name" := VStr "copy_stencil";
     "pyext_file_path" := VStr "/build/_copy_stencil.so";
     "id" := VStr "stencil_id"; "iir" := VObj 30;
     "src" := VDict {[ "computation.cpp" := VStr "void run();" ]};
     "bindings_src" := VDict {[ "bindings.cpp" := VStr "PYBIND11_MODULE" ]} ]}.

(** An implementation IR whose only argument, the field [a], is listed as
    unreferenced, and one that reads [inp] and writes [out]. *)
Definition unreferenced_field_ir : @StencilImplementation unit unit unit :=
  {| multi_stages := [];
     api_signature := [ {| name := "a"; is_keyword := false |} ];
     fields := {[ "a" := {| fd_axes := tt; fd_data_type := tt |} ]};
     parameters := ∅;
     fields_extents := {[ "a" := tt ]};
     unreferenced := {[ "a" ]} |}.

Definition copy_ir : @StencilImplementation unit unit unit :=
  {| multi_stages :=
       [ {| groups :=
              [ {| stages :=
                     [ {| accessors :=
                            [ FieldAccessor "inp" AccessIntent.READ_ONLY tt;
                              FieldAccessor "out" AccessIntent.READ_WRITE tt ] |} ] |} ] |} ];
     api_signature := [ {| name := "inp"; is_keyword := false |};
                        {| name := "out"; is_keyword := false |} ];
     fields := {[ "inp" := {| fd_axes := tt; fd_data_type := tt |};
                  "out" := {| fd_axes := tt; fd_data_type := tt |} ]};
     parameters := ∅;
     fields_extents := {[ "inp" := tt; "out" := tt ]};
     unreferenced := ∅ |}.

(** A stencil [mixed(inp, unused, scale, dt, out)] whose field [unused]
    and parameter [dt] are unreferenced and have neither extent nor
    parameter declaration, and a stencil with an unreferenced field [a]
    whose referenced field [out] has no extent. *)
Definition mixed_ir : @StencilImplementation unit unit unit :=
  {| multi_stages := multi_stages copy_ir;
     api_signature := [ {| name := "inp"; is_keyword := false |};
                        {| name := "unused"; is_keyword := false |};
                        {| name := "scale"; is_keyword := true |};
                        {| name := "dt"; is_keyword := true |};
                        {| name := "out"; is_keyword := false |} ];
     fields := {[ "inp" := {| fd_axes := tt; fd_data_type := tt |};
                  "unused" := {| fd_axes := tt; fd_data_type := tt |};
                  "out" := {| fd_axes := tt; fd_data_type := tt |} ]};
     parameters := {[ "scale" := {| vd_data_type := tt |} ]};
     fields_extents := {[ "inp" := tt; "out" := tt ]};
     unreferenced := {[ "unused"; "dt" ]} |}.

Definition missing_extent_ir : @StencilImplementation unit unit unit :=
  {| multi_stages := [];
     api_signature := [ {| name := "a"; is_keyword := false |};
                        {| name := "out"; is_keyword := false |} ];
     fields := {[ "a" := {| fd_axes := tt; fd_data_type := tt |};
                  "out" := {| fd_axes := tt; fd_data_type := tt |} ]};
     parameters := ∅;
     fields_extents := ∅;
     unreferenced := {[ "a" ]} |}.

(** The context of [BuildContext(definition, **request)] under [demo], and
    the same context after [IRStage] and [IIRStage]. *)
Definition request_context : gmap string Value :=
  {[ "frontend" := VObj 1; "backend" := VObj 2;
     "bindings" := VList [VStr "python"];
     "pyext_file_path" := VStr "/build/_copy_stencil.so";
     "definition" := VObj 0; "module" := VStr "stencils"; "name" := VStr "copy_stencil";
     "externals" := VDict ∅; "qualified_name" := VStr "stencils.copy_stencil";
     "build_info" := VDict ∅; "options" := VObj 10 ]}.

Definition context_for_source : gmap string Value :=
  <["iir" := VObj 30]> (<["ir" := VObj 20]> (<["id" := VStr "stencil_id"]>
    (<["options_id" := VStr "opts"]> request_context))).

(** [demo] with a frontend whose [get_stencil_id] raises, and [demo] with
    a backend without bindings languages. *)
Definition failing_stencil_id : Collaborators := {|
  getattr := getattr demo;
  getattr_module := getattr_module demo; attr_name := attr_name demo;
  BuildOptions := BuildOptions demo; py_format := py_format demo;
  get_options_id := get_options_id demo;
  get_stencil_id := λ _ _ _ _ _, Raise (CollaboratorError 1);
  generate := generate demo; _check_options := _check_options demo;
  transform := transform demo; BINDINGS_LANGUAGES := BINDINGS_LANGUAGES demo;
  SRC_EXTENSION := SRC_EXTENSION demo; _CPU_ARCHITECTURE := _CPU_ARCHITECTURE demo;
  get_pyext_class_name := get_pyext_class_name demo;
  get_pyext_module_name := get_pyext_module_name demo;
  PYEXT_GENERATOR_CLASS := PYEXT_GENERATOR_CLASS demo;
  call_pyext_generator := call_pyext_generator demo;
  as_dict := as_dict demo; GENERATOR_CLASS := GENERATOR_CLASS demo;
  call_generator := call_generator demo
|}.

Definition python_backend : Collaborators := {|
  getattr := getattr demo;
  getattr_module := getattr_module demo; attr_name := attr_name demo;
  BuildOptions := BuildOptions demo; py_format := py_format demo;
  get_options_id := get_options_id demo; get_stencil_id := get_stencil_id demo;
  generate := generate demo; _check_options := _check_options demo;
  transform := transform demo; BINDINGS_LANGUAGES := λ _, Ok (VList []);
  SRC_EXTENSION := SRC_EXTENSION demo; _CPU_ARCHITECTURE := _CPU_ARCHITECTURE demo;
  get_pyext_class_name := get_pyext_class_name demo;
  get_pyext_module_name := get_pyext_module_name demo;
  PYEXT_GENERATOR_CLASS := PYEXT_GENERATOR_CLASS demo;
  call_pyext_generator := call_pyext_generator demo;
  as_dict := as_dict demo; GENERATOR_CLASS := GENERATOR_CLASS demo;
  call_generator := call_generator demo
|}.

(** The result of [make_args_data_from_iir] on [copy_ir]. *)
Definition copy_ir_data : @ModuleData unit unit unit :=
  {| field_info :=
       [ ("inp", Some {| access := AccessKind.READ_ONLY; boundary := tt; axes := tt;
                         fi_dtype := tt |});
         ("out", Some {| access := AccessKind.READ_WRITE; boundary := tt; axes := tt;
                         fi_dtype := tt |}) ];
     parameter_info := [];
     md_unreferenced := ∅ |}.

(** [copy_ir] with the two accessors in two stages of two multi-stages, in
    the other order, and [copy_ir] without the extent of [out]. *)
Definition copy_ir_regrouped : @StencilImplementation unit unit unit :=
  {| multi_stages :=
       [ {| groups := [ {| stages := [ {| accessors :=
              [ FieldAccessor "out" AccessIntent.READ_WRITE tt ] |} ] |} ] |};
         {| groups := [ {| stages := [ {| accessors :=
              [ FieldAccessor "inp" AccessIntent.READ_ONLY tt;
                FieldAccessor "out" AccessIntent.READ_WRITE tt ] |} ] |} ] |} ];
     api_signature := api_signature copy_ir;
     fields := fields copy_ir;
     parameters := parameters copy_ir;
     fields_extents := fields_extents copy_ir;
     unreferenced := unreferenced copy_ir |}.

Definition copy_ir_without_extent : @StencilImplementation unit unit unit :=
  {| multi_stages := multi_stages copy_ir;
     api_signature := api_signature copy_ir;
     fields := fields copy_ir;
     parameters := parameters copy_ir;
     fields_extents := {[ "inp" := tt ]};
     unreferenced := unreferenced copy_ir |}.

(** A stencil signature [copy(inp, out, *, scale=1.0)] and a generator
    bound to a builder, the builder being its class name. *)
Definition copy_signature : list ArgumentInfo :=
  [ {| name := "inp"; is_keyword := false |};
    {| name := "scale"; is_keyword := true |};
    {| name := "out"; is_keyword := false |} ].

Definition copy_default (arg : ArgumentInfo) : option string :=
  if String.eqb (name arg) "scale" then Some "1.0" else None.

Definition bound_generator : @BaseModuleGenerator unit unit unit string :=
  BaseModuleGenerator_init (Some "CopyStencil").

End Examples.

(** * Properties *)

Section AnalysisProperties.
Import Analysis.
#[local] Open Scope Z_scope.

Lemma margins_scan_offset (ax : Axis) (o : Offset) (b : FieldBoundary) :
  margins ax (scan_offset o b) = widen (margins ax b) (component ax o).
Proof. by destruct ax. Qed.

Lemma margin_invariant_widen (ax : Axis) (X : gset Offset) (x : Offset) (m : Z * Z) :
  margin_invariant ax X m →
  margin_invariant ax ({[ x ]} ∪ X) (widen m (component ax x)).
Proof.
  intros [(Hb0 & Hbc & Hba) (Ha0 & Hac & Haa)]. unfold widen, margin_invariant; cbn [fst snd]. split.
  - split; [lia|]. split.
    + intros o [->%elem_of_singleton | Ho]%elem_of_union; [lia|].
      specialize (Hbc o Ho). lia.
    + destruct (Z.max_spec (m.1) (- component ax x)) as [[_ ->] | [_ ->]].
      * right. exists x. split; [apply elem_of_union_l; by apply elem_of_singleton | done].
      * destruct Hba as [? | (o & Ho & ?)]; [by left|].
        right. exists o. split; [by apply elem_of_union_r | done].
  - split; [lia|]. split.
    + intros o [->%elem_of_singleton | Ho]%elem_of_union; [lia|].
      specialize (Hac o Ho). lia.
    + destruct (Z.max_spec (m.2) (component ax x)) as [[_ ->] | [_ ->]].
      * right. exists x. split; [apply elem_of_union_l; by apply elem_of_singleton | done].
      * destruct Haa as [? | (o & Ho & ?)]; [by left|].
        right. exists o. split; [by apply elem_of_union_r | done].
Qed.

Lemma boundary_of_offsets_invariant (ax : Axis) (X : gset Offset) :
  margin_invariant ax X (margins ax (boundary_of_offsets X)).
Proof.
  unfold boundary_of_offsets.
  apply (set_fold_ind_L (λ b X, margin_invariant ax X (margins ax b))).
  - destruct ax; simpl; (split; (split; [done|]; split; [set_solver | by left])).
  - intros x Y b _ IH. rewrite margins_scan_offset. by apply margin_invariant_widen.
Qed.

Lemma boundary_of_offsets_extremes (ax : Axis) (X : gset Offset) (lo hi : Z) :
  is_min_offset ax X lo → is_max_offset ax X hi →
  margins ax (boundary_of_offsets X) = (Z.max 0 (- lo), Z.max 0 hi).
Proof.
  intros [(omin & Homin & <-) Hlo] [(omax & Homax & <-) Hhi].
  destruct (boundary_of_offsets_invariant ax X) as [(Hb0 & Hbc & Hba) (Ha0 & Hac & Haa)].
  destruct (margins ax (boundary_of_offsets X)) as [before after]; simpl in *.
  f_equal.
  - specialize (Hbc omin Homin).
    destruct Hba as [-> | (o & Ho & ->)]; [lia|].
    specialize (Hlo o Ho). lia.
  - specialize (Hac omax Homax).
    destruct Haa as [-> | (o & Ho & ->)]; [lia|].
    specialize (Hhi o Ho). lia.
Qed.

(** C1: on the two-horizontal-execution program of the access-collector
    test the collector returns exactly the expected read and write sets;
    the mask-only field [mask] is among the reads with its offset
    (-1,-1,1), and the masked statement contributes its read of [tmp] at
    (0,1,0) and its write of [baz] at (0,0,0). *)
Theorem access_collector_test_case :
  AccessCollector_apply access_collector_testee = access_collector_expected ∧
  reads (AccessCollector_apply access_collector_testee) !! "mask" = Some {[ (-1, -1, 1) ]} ∧
  writes (AccessCollector_apply access_collector_testee) !! "mask" = None ∧
  reads (AccessCollector_apply access_collector_testee) !! "tmp"
    = Some {[ (0, 0, 0); (0, 1, 0) ]} ∧
  writes (AccessCollector_apply access_collector_testee) !! "baz" = Some {[ (0, 0, 0) ]}.
Proof. repeat split; vm_compute; reflexivity. Qed.

(** C2: for every program, field and axis the margins computed by the
    resolver are (max(0, -lo), max(0, hi)) where lo and hi are the least
    and the greatest offset observed for the field on that axis, and (0,0)
    when no offset is observed for the field; for the
    copy-with-shift program [a = b[offset]] field [a] has all-zero margins
    and field [b] has i=(1,0), j=(0,2), k=(0,0) for offset (-1,2,0) and
    i=(0,1), j=(0,2), k=(3,0) for offset (1,2,-3). *)
Theorem field_boundary_margins :
  (∀ (program : StencilProgram) (field : string) (ax : Axis) (lo hi : Z),
     let observed := default ∅ (accesses (AccessCollector_apply program) !! field) in
     is_min_offset ax observed lo → is_max_offset ax observed hi →
     margins ax (FieldsMetadataPass program field) = (Z.max 0 (- lo), Z.max 0 hi)) ∧
  (∀ (program : StencilProgram) (field : string) (ax : Axis),
     default ∅ (accesses (AccessCollector_apply program) !! field) = ∅ →
     margins ax (FieldsMetadataPass program field) = (0, 0)) ∧
  FieldsMetadataPass (copy_shift (-1, 2, 0)) "a" = {| i := (0, 0); j := (0, 0); k := (0, 0) |} ∧
  FieldsMetadataPass (copy_shift (-1, 2, 0)) "b" = {| i := (1, 0); j := (0, 2); k := (0, 0) |} ∧
  FieldsMetadataPass (copy_shift (1, 2, -3)) "a" = {| i := (0, 0); j := (0, 0); k := (0, 0) |} ∧
  FieldsMetadataPass (copy_shift (1, 2, -3)) "b" = {| i := (0, 1); j := (0, 2); k := (3, 0) |}.
Proof.
  split.
  - intros program field ax lo hi observed Hlo Hhi.
    by apply boundary_of_offsets_extremes.
  - split.
    + intros program field ax Hnone. unfold FieldsMetadataPass, field_boundary.
      rewrite Hnone. unfold boundary_of_offsets. rewrite set_fold_empty. by destruct ax.
    + repeat split; vm_compute; reflexivity.
Qed.

(** The general part of C2 at field [b] of [a = b[(1,2,-3)]] on the k
    axis, where the only observed offset is -3. *)
Lemma field_boundary_margins_witness :
  margins K (FieldsMetadataPass (copy_shift (1, 2, -3)) "b") = (Z.max 0 (- -3), Z.max 0 (-3)).
Proof.
  assert (default ∅ (accesses (AccessCollector_apply (copy_shift (1, 2, -3))) !! "b")
          = ({[ (1, 2, -3) ]} : gset Offset)) as E by (vm_compute; reflexivity).
  apply (proj1 field_boundary_margins (copy_shift (1, 2, -3)) "b" K (-3) (-3)); rewrite E.
  - split.
    + exists (1, 2, -3). split; [by apply elem_of_singleton | reflexivity].
    + intros o ->%elem_of_singleton. simpl. lia.
  - split.
    + exists (1, 2, -3). split; [by apply elem_of_singleton | reflexivity].
    + intros o ->%elem_of_singleton. simpl. lia.
Defined.

(** The access sets of [a = b[o]]. *)
Lemma copy_shift_accesses (o : Offset) :
  accesses (AccessCollector_apply (copy_shift o)) !! "a" = Some {[ (0, 0, 0) ]} ∧
  accesses (AccessCollector_apply (copy_shift o)) !! "b" = Some {[ o ]}.
Proof.
  unfold accesses, AccessCollector_apply, copy_shift. simpl.
  unfold collect_horizontal_execution, collect_stmt, assign, record_read, record_write,
    add_offset. simpl.
  rewrite !lookup_union_with, !lookup_empty. simpl.
  rewrite !lookup_insert_eq, !lookup_insert_ne, !lookup_empty by done. simpl.
  by rewrite !(right_id_L ∅ (∪)).
Qed.

(** X25: [test_copy_shift] for every offset. For [a = b[o]] the written
    field [a] has all-zero margins, and the margins of the read field [b]
    are, on each axis, the offset on the side it points to and 0 on the
    other side; for the offset (0,0,0) both boundaries are all zero. *)
Theorem copy_shift_boundaries (o : Offset) :
  FieldsMetadataPass (copy_shift o) "a" = zero_boundary ∧
  FieldsMetadataPass (copy_shift o) "b" =
    {| i := (Z.max 0 (- component I o), Z.max 0 (component I o));
       j := (Z.max 0 (- component J o), Z.max 0 (component J o));
       k := (Z.max 0 (- component K o), Z.max 0 (component K o)) |} ∧
  FieldsMetadataPass (copy_shift (0, 0, 0)) "b" = zero_boundary.
Proof.
  assert (∀ o', FieldsMetadataPass (copy_shift o') "b" =
            {| i := (Z.max 0 (- component I o'), Z.max 0 (component I o'));
               j := (Z.max 0 (- component J o'), Z.max 0 (component J o'));
               k := (Z.max 0 (- component K o'), Z.max 0 (component K o')) |}) as Hb.
  { intros o'. unfold FieldsMetadataPass, field_boundary.
    rewrite (proj2 (copy_shift_accesses o')). simpl.
    unfold boundary_of_offsets. by rewrite set_fold_singleton. }
  split; [|split; [apply Hb | by rewrite Hb]].
  unfold FieldsMetadataPass, field_boundary.
  rewrite (proj1 (copy_shift_accesses o)). simpl.
  unfold boundary_of_offsets. by rewrite set_fold_singleton.
Qed.

End AnalysisProperties.

Section ModuleGeneratorProperties.
Import ModuleGenerator.
Context {Extent Boundary Axes DataType Dtype StencilBuilder : Type}.
Context (to_boundary : Extent → Boundary) (dtype_of : DataType → Dtype).
Context (class_name : StencilBuilder → string).
Context (render_rest :
  @ModuleData Boundary Axes Dtype → StencilBuilder → string → result string).

Abbreviation IR := (@StencilImplementation Extent Axes DataType).
Abbreviation Data := (@ModuleData Boundary Axes Dtype).

(** **** Ordered dictionaries *)

Lemma dict_lookup_set_eq {V} (d : list (string * V)) (key : string) (v : V) :
  dict_lookup (dict_set d key v) key = Some v.
Proof.
  induction d as [|[k x] d IH]; simpl.
  - by rewrite String.eqb_refl.
  - destruct (String.eqb k key) eqn:E; simpl; rewrite E; [done | apply IH].
Qed.

Lemma dict_lookup_set_ne {V} (d : list (string * V)) (key key' : string) (v : V) :
  key ≠ key' → dict_lookup (dict_set d key v) key' = dict_lookup d key'.
Proof.
  intros Hne. induction d as [|[k x] d IH]; simpl.
  - destruct (String.eqb_spec key key'); [done | reflexivity].
  - destruct (String.eqb_spec k key) as [-> | Hk]; simpl.
    + destruct (String.eqb_spec key key'); [done | reflexivity].
    + destruct (String.eqb_spec k key'); [reflexivity | apply IH].
Qed.

Lemma dict_lookup_is_Some {V} (d : list (string * V)) (key : string) :
  is_Some (dict_lookup d key) ↔ key ∈@{list string} dict_keys d.
Proof.
  unfold dict_keys. induction d as [|[k x] d IH]; simpl.
  - split; [by intros [? ?] | by intros ?%elem_of_nil].
  - destruct (String.eqb_spec k key) as [-> | Hk].
    + split; [intros _; apply list_elem_of_here | by eexists].
    + rewrite IH. split; [apply list_elem_of_further |].
      intros [? | ?]%elem_of_cons; [congruence | done].
Qed.

Lemma dict_keys_set {V} (d : list (string * V)) (key : string) (v : V) :
  dict_keys (dict_set d key v) =
  if bool_decide (key ∈@{list string} dict_keys d) then dict_keys d
  else (dict_keys d ++ [key])%list.
Proof.
  unfold dict_keys. induction d as [|[k x] d IH].
  - case_bool_decide as Hin; [by apply elem_of_nil in Hin | done].
  - cbn [dict_set]. destruct (String.eqb_spec k key) as [-> | Hk].
    + rewrite !fmap_cons. cbn [fst].
      clear IH. case_bool_decide as Hin; [done | exfalso; apply Hin, list_elem_of_here].
    + rewrite !fmap_cons, IH. cbn [fst].
      repeat case_bool_decide; try done.
      * exfalso. by eauto using list_elem_of_further.
      * exfalso. match goal with H : _ ∈ _ :: _ |- _ => apply elem_of_cons in H as [? | ?] end;
          [congruence | done].
Qed.

(** **** The fields written somewhere in the program *)

Lemma foldl_union_spec {X} (step : gset string → X → gset string) (P : X → string → Prop) :
  (∀ out x f, f ∈ step out x ↔ f ∈ out ∨ P x f) →
  ∀ xs out f, f ∈ foldl step out xs ↔ f ∈ out ∨ ∃ x, x ∈ xs ∧ P x f.
Proof.
  intros Hstep xs. induction xs as [|x xs IH]; intros out f; simpl.
  - split; [by left | intros [? | (x & ?%elem_of_nil & _)]; done].
  - rewrite IH, Hstep. split.
    + intros [[? | ?] | (y & ? & ?)].
      * by left.
      * right. exists x. split; [apply list_elem_of_here | done].
      * right. exists y. split; [by apply list_elem_of_further | done].
    + intros [? | (y & [-> | ?]%elem_of_cons & ?)].
      * left. by left.
      * left. by right.
      * right. by exists y.
Qed.

Lemma add_out_field_spec (out : gset string) (acc : @Accessor Extent) (f : string) :
  f ∈ add_out_field out acc ↔
  f ∈ out ∨ ∃ extent, acc = FieldAccessor f AccessIntent.READ_WRITE extent.
Proof.
  destruct acc as [symbol [] extent | symbol]; simpl.
  - split; [by left | intros [? | (? & ?)]; [done | congruence]].
  - rewrite elem_of_union, elem_of_singleton. split.
    + intros [-> | ?]; [right; by exists extent | by left].
    + intros [? | (? & [= -> _])]; [by right | by left].
  - split; [by left | intros [? | (? & ?)]; [done | congruence]].
Qed.

Lemma collect_out_fields_spec (implementation_ir : IR) (f : string) :
  f ∈ collect_out_fields implementation_ir ↔ has_write_access implementation_ir f.
Proof.
  unfold collect_out_fields, has_write_access.
  rewrite (foldl_union_spec _ (λ ms f, ∃ sg, sg ∈ groups ms ∧ ∃ st, st ∈ stages sg ∧
             ∃ acc, acc ∈ accessors st ∧
             ∃ extent, acc = FieldAccessor f AccessIntent.READ_WRITE extent)).
  - split.
    + intros [?%not_elem_of_empty | (ms & ? & sg & ? & st & ? & acc & ? & extent & ->)]; [done|].
      by exists ms, sg, st, extent.
    + intros (ms & sg & st & extent & ? & ? & ? & ?). right.
      exists ms. split; [done|]. exists sg. split; [done|]. exists st. split; [done|].
      eexists. split; [done|]. by exists extent.
  - intros out ms g.
    apply (foldl_union_spec _ (λ sg f, ∃ st, st ∈ stages sg ∧ ∃ acc, acc ∈ accessors st ∧
             ∃ extent, acc = FieldAccessor f AccessIntent.READ_WRITE extent)).
    intros out1 sg g1.
    apply (foldl_union_spec _ (λ st f, ∃ acc, acc ∈ accessors st ∧
             ∃ extent, acc = FieldAccessor f AccessIntent.READ_WRITE extent)).
    intros out2 st g2.
    apply (foldl_union_spec _ (λ acc f,
             ∃ extent, acc = FieldAccessor f AccessIntent.READ_WRITE extent)).
    intros out3 acc g3. apply add_out_field_spec.
Qed.

(** **** One iteration of the loop over the signature *)

Lemma record_arg_shape (implementation_ir : IR) (data data' : Data) (arg : ArgumentInfo) :
  record_arg to_boundary dtype_of implementation_ir (collect_out_fields implementation_ir)
    data arg = Ok data' →
  if bool_decide (is_Some (fields implementation_ir !! name arg)) then
    ∃ e, field_entry_ok implementation_ir (name arg) e ∧
         field_info data' = dict_set (field_info data) (name arg) e ∧
         parameter_info data' = parameter_info data
  else
    ∃ e, parameter_entry_ok implementation_ir (name arg) e ∧
         parameter_info data' = dict_set (parameter_info data) (name arg) e ∧
         field_info data' = field_info data.
Proof.
  unfold record_arg, field_entry_ok, parameter_entry_ok.
  destruct (bool_decide (is_Some (fields implementation_ir !! name arg))).
  - case_bool_decide as Hunref.
    + destruct (subscript (fields implementation_ir) (name arg)) as [decl | ?]; [|done].
      destruct (subscript (fields_extents implementation_ir) (name arg)) as [ext | ?]; [|done].
      intros [= <-]. eexists. rewrite bool_decide_eq_false_2 by done. simpl.
      split; [|done]. by eexists.
    + intros [= <-]. exists None. rewrite bool_decide_eq_true_2; [done|].
      by destruct (decide (name arg ∈ unreferenced implementation_ir)).
  - case_bool_decide as Hunref.
    + destruct (subscript (parameters implementation_ir) (name arg)) as [decl | ?]; [|done].
      intros [= <-]. eexists. rewrite bool_decide_eq_false_2 by done. simpl.
      split; [by eexists | done].
    + intros [= <-]. exists None. rewrite bool_decide_eq_true_2; [done|].
      by destruct (decide (name arg ∈ unreferenced implementation_ir)).
Qed.

Lemma record_arg_entries_ok (implementation_ir : IR) (data data' : Data) (arg : ArgumentInfo) :
  record_arg to_boundary dtype_of implementation_ir (collect_out_fields implementation_ir)
    data arg = Ok data' →
  entries_ok implementation_ir data → entries_ok implementation_ir data'.
Proof.
  intros Hrec [Hf Hp]. apply record_arg_shape in Hrec.
  destruct (bool_decide (is_Some (fields implementation_ir !! name arg)));
    destruct Hrec as (e & He & E1 & E2); split; rewrite ?E1, ?E2; try done.
  - intros n e'. destruct (decide (name arg = n)) as [<- | Hne].
    + rewrite dict_lookup_set_eq. by intros [= <-].
    + rewrite dict_lookup_set_ne by done. apply Hf.
  - intros n e'. destruct (decide (name arg = n)) as [<- | Hne].
    + rewrite dict_lookup_set_eq. by intros [= <-].
    + rewrite dict_lookup_set_ne by done. apply Hp.
Qed.

(** **** The order of the entries *)

Lemma filter_absorb (seen : list string) (k : string) (l : list string) :
  k ∈ seen →
  List.filter (λ n, negb (bool_decide (n ∈ seen))) (List.filter (λ m, negb (String.eqb m k)) l)
  = List.filter (λ n, negb (bool_decide (n ∈ seen))) l.
Proof.
  intros Hk. induction l as [|x l IH]; [done|]. simpl.
  destruct (String.eqb_spec x k) as [-> | Hx]; simpl.
  - by rewrite bool_decide_eq_true_2.
  - by rewrite IH.
Qed.

Lemma filter_seen_snoc (seen : list string) (k : string) (l : list string) :
  List.filter (λ n, negb (bool_decide (n ∈ (seen ++ [k])%list))) l
  = List.filter (λ n, negb (bool_decide (n ∈ seen))) (List.filter (λ m, negb (String.eqb m k)) l).
Proof.
  induction l as [|x l IH]; [done|]. simpl.
  destruct (String.eqb_spec x k) as [-> | Hx]; simpl.
  - rewrite bool_decide_eq_true_2; [done|].
    apply elem_of_app. right. apply list_elem_of_here.
  - rewrite IH. destruct (decide (x ∈ seen)) as [Hin | Hin].
    + rewrite !bool_decide_eq_true_2; [done | done |]. apply elem_of_app. by left.
    + rewrite !bool_decide_eq_false_2; [done | done |].
      intros [? | ?%list_elem_of_singleton]%elem_of_app; done.
Qed.

Lemma record_args_keys (implementation_ir : IR) (args : list ArgumentInfo) (data data' : Data) :
  record_args to_boundary dtype_of implementation_ir (collect_out_fields implementation_ir)
    data args = Ok data' →
  dict_keys (field_info data') =
    (dict_keys (field_info data) ++
     List.filter (λ n, negb (bool_decide (n ∈ dict_keys (field_info data))))
       (first_occurrences (field_arg_names implementation_ir args)))%list ∧
  dict_keys (parameter_info data') =
    (dict_keys (parameter_info data) ++
     List.filter (λ n, negb (bool_decide (n ∈ dict_keys (parameter_info data))))
       (first_occurrences (parameter_arg_names implementation_ir args)))%list.
Proof.
  revert data. induction args as [|arg args IH]; intros data; simpl.
  - intros [= <-]. by rewrite !app_nil_r.
  - destruct (record_arg _ _ _ _ data arg) as [data1 | e] eqn:Hrec; [|done].
    intros Hrest. destruct (IH _ Hrest) as [IHf IHp]. rewrite IHf, IHp. clear IH IHf IHp Hrest.
    apply record_arg_shape in Hrec.
    unfold field_arg_names, parameter_arg_names. rewrite !fmap_cons. simpl.
    destruct (bool_decide (is_Some (fields implementation_ir !! name arg)));
      destruct Hrec as (e & _ & -> & ->); simpl; (split; [|]); try done.
    + rewrite dict_keys_set. case_bool_decide as Hin; simpl.
      * by rewrite filter_absorb.
      * by rewrite <- app_assoc, filter_seen_snoc.
    + rewrite dict_keys_set. case_bool_decide as Hin; simpl.
      * by rewrite filter_absorb.
      * by rewrite <- app_assoc, filter_seen_snoc.
Qed.

Lemma record_args_entries_ok (implementation_ir : IR) (args : list ArgumentInfo)
    (data data' : Data) :
  record_args to_boundary dtype_of implementation_ir (collect_out_fields implementation_ir)
    data args = Ok data' →
  entries_ok implementation_ir data → entries_ok implementation_ir data'.
Proof.
  revert data. induction args as [|arg args IH]; intros data; simpl.
  - by intros [= <-].
  - destruct (record_arg _ _ _ _ data arg) as [data1 | e] eqn:Hrec; [|done].
    intros Hrest Hok. apply (IH _ Hrest). by eapply record_arg_entries_ok.
Qed.

Lemma record_args_total (implementation_ir : IR) (args : list ArgumentInfo) (data : Data) :
  (∀ arg, arg ∈ args → name arg ∉ unreferenced implementation_ir →
     if bool_decide (is_Some (fields implementation_ir !! name arg))
     then is_Some (fields_extents implementation_ir !! name arg)
     else is_Some (parameters implementation_ir !! name arg)) →
  ∃ data',
    record_args to_boundary dtype_of implementation_ir (collect_out_fields implementation_ir)
      data args = Ok data'.
Proof.
  revert data. induction args as [|arg args IH]; intros data Hdecl; simpl; [by eexists|].
  assert (∃ data1, record_arg to_boundary dtype_of implementation_ir
            (collect_out_fields implementation_ir) data arg = Ok data1) as [data1 ->].
  { specialize (Hdecl arg (list_elem_of_here _ _)). unfold record_arg, subscript.
    case_bool_decide as Hfield.
    - case_bool_decide as Hunref; [|by eexists].
      destruct Hfield as [decl ->]. destruct (Hdecl Hunref) as [ext ->]. by eexists.
    - case_bool_decide as Hunref; [|by eexists].
      destruct (Hdecl Hunref) as [decl ->]. by eexists. }
  apply IH. intros arg' Hin. apply Hdecl. by apply list_elem_of_further.
Qed.

Lemma elem_of_first_occurrences (n : string) (l : list string) :
  n ∈ first_occurrences l ↔ n ∈ l.
Proof.
  induction l as [|x l IH]; [done|]. simpl. rewrite !elem_of_cons, <- IH.
  rewrite !list_elem_of_In, List.filter_In, <- !list_elem_of_In.
  destruct (String.eqb_spec n x) as [-> | Hne]; simpl; intuition congruence.
Qed.

Lemma first_occurrences_NoDup (l : list string) :
  NoDup l → first_occurrences l = l.
Proof.
  induction 1 as [|x l Hx _ IH]; [done|]. simpl. rewrite IH. f_equal.
  clear IH. induction l as [|y l IH]; [done|]. simpl.
  apply not_elem_of_cons in Hx as [Hxy Hx].
  destruct (String.eqb_spec y x); [congruence|]. simpl. by rewrite IH.
Qed.

Lemma NoDup_List_filter (f : string → bool) (l : list string) :
  NoDup l → NoDup (List.filter f l).
Proof.
  induction 1 as [|x l Hx _ IH]; simpl; [constructor|].
  destruct (f x); [|done]. constructor; [|done].
  rewrite list_elem_of_In, List.filter_In, <- list_elem_of_In. by intros [? _].
Qed.

(** **** [make_args_data_from_iir] as a whole *)

Lemma filter_seen_nil (l : list string) :
  List.filter (λ n, negb (bool_decide (n ∈ ([] : list string)))) l = l.
Proof.
  induction l as [|x l IH]; [done|]. cbn [List.filter].
  rewrite bool_decide_eq_false_2 by apply not_elem_of_nil. cbn [negb]. by rewrite IH.
Qed.

Lemma make_args_data_from_iir_spec (implementation_ir : IR) :
  declarations_complete implementation_ir →
  ∃ data,
    make_args_data_from_iir to_boundary dtype_of implementation_ir = Ok data ∧
    entries_ok implementation_ir data ∧
    field_names data =
      first_occurrences (field_arg_names implementation_ir (api_signature implementation_ir)) ∧
    parameter_names data =
      first_occurrences (parameter_arg_names implementation_ir (api_signature implementation_ir)) ∧
    md_unreferenced data = unreferenced implementation_ir.
Proof.
  intros Hdecl. unfold make_args_data_from_iir.
  destruct (record_args_total implementation_ir (api_signature implementation_ir)
              ModuleData_default Hdecl) as [data Hdata].
  rewrite Hdata. eexists. split; [done|].
  pose proof (record_args_entries_ok _ _ _ _ Hdata) as Hok.
  destruct (record_args_keys _ _ _ _ Hdata) as [Hf Hp].
  unfold field_names, parameter_names, entries_ok in *. simpl in *.
  rewrite filter_seen_nil in Hf, Hp. repeat split; try done; apply Hok; by split.
Qed.

Lemma elem_of_field_arg_names (implementation_ir : IR) (args : list ArgumentInfo)
    (arg : ArgumentInfo) :
  arg ∈ args → is_Some (fields implementation_ir !! name arg) →
  name arg ∈ field_arg_names implementation_ir args.
Proof.
  intros Hin Hfield. unfold field_arg_names.
  apply list_elem_of_In, List.filter_In. split.
  - apply list_elem_of_In, list_elem_of_fmap. by exists arg.
  - by apply bool_decide_eq_true_2.
Qed.

Lemma elem_of_parameter_arg_names (implementation_ir : IR) (args : list ArgumentInfo)
    (arg : ArgumentInfo) :
  arg ∈ args → ¬ is_Some (fields implementation_ir !! name arg) →
  name arg ∈ parameter_arg_names implementation_ir args.
Proof.
  intros Hin Hfield. unfold parameter_arg_names.
  apply list_elem_of_In, List.filter_In. split.
  - apply list_elem_of_In, list_elem_of_fmap. by exists arg.
  - by rewrite bool_decide_eq_false_2.
Qed.

Lemma record_args_returns (implementation_ir : IR) (args : list ArgumentInfo)
    (data data' : Data) :
  record_args to_boundary dtype_of implementation_ir (collect_out_fields implementation_ir)
    data args = Ok data' →
  ∀ arg, arg ∈ args → name arg ∉ unreferenced implementation_ir →
    if bool_decide (is_Some (fields implementation_ir !! name arg))
    then is_Some (fields_extents implementation_ir !! name arg)
    else is_Some (parameters implementation_ir !! name arg).
Proof.
  revert data. induction args as [|a args IH]; intros data Hrec arg Hin Hunref.
  - by apply elem_of_nil in Hin.
  - simpl in Hrec.
    destruct (record_arg _ _ _ _ data a) as [data1 | e] eqn:Ha; [|done].
    apply elem_of_cons in Hin as [-> | Hin]; [|by eapply IH].
    clear IH Hrec. unfold record_arg, subscript in Ha.
    destruct (bool_decide (is_Some (fields implementation_ir !! name a)));
      rewrite bool_decide_eq_true_2 in Ha by done.
    + destruct (fields implementation_ir !! name a); [|done].
      by destruct (fields_extents implementation_ir !! name a).
    + by destruct (parameters implementation_ir !! name a).
Qed.

(** The function returns exactly on the implementation IRs in which every
    referenced argument has its declaration; on the others it raises the
    [KeyError] of the missing declaration. *)
Lemma make_args_data_from_iir_returns_iff (implementation_ir : IR) :
  (∃ data, make_args_data_from_iir to_boundary dtype_of implementation_ir = Ok data) ↔
  declarations_complete implementation_ir.
Proof.
  split.
  - intros [data Hmake]. unfold make_args_data_from_iir in Hmake.
    destruct (record_args _ _ _ _ _ _) as [data1 | e] eqn:Hrec; [|done].
    intros arg. by eapply record_args_returns.
  - intros Hdecl. destruct (make_args_data_from_iir_spec _ Hdecl) as (data & Hmake & _).
    by exists data.
Qed.

(** C3 (as amended): for every field argument the access kind that
    [make_args_data_from_iir] computes is [READ_WRITE] if and only if some
    field accessor with intent [READ_WRITE] for that field exists in the
    program, and [READ_ONLY] otherwise; when the function returns, this
    access kind is the one recorded in the [FieldInfo] of an argument that
    is not listed as unreferenced, while an argument listed as
    unreferenced has the entry [None] and so no access kind. *)
Theorem field_access_kind_spec (implementation_ir : IR) (arg : ArgumentInfo) :
  (access_kind_of (collect_out_fields implementation_ir) arg = AccessKind.READ_WRITE ↔
     has_write_access implementation_ir (name arg)) ∧
  (access_kind_of (collect_out_fields implementation_ir) arg = AccessKind.READ_ONLY ↔
     ¬ has_write_access implementation_ir (name arg)) ∧
  (declarations_complete implementation_ir →
   arg ∈ api_signature implementation_ir →
   is_Some (fields implementation_ir !! name arg) →
   ∃ data,
     make_args_data_from_iir to_boundary dtype_of implementation_ir = Ok data ∧
     if bool_decide (name arg ∈ unreferenced implementation_ir)
     then dict_lookup (field_info data) (name arg) = Some None
     else ∃ info,
            dict_lookup (field_info data) (name arg) = Some (Some info) ∧
            access info = access_kind_of (collect_out_fields implementation_ir) arg).
Proof.
  split; [|split].
  - unfold access_kind_of. rewrite <- collect_out_fields_spec. by case_bool_decide.
  - unfold access_kind_of. rewrite <- collect_out_fields_spec. by case_bool_decide.
  - intros Hdecl Hin Hfield.
    destruct (make_args_data_from_iir_spec _ Hdecl) as (data & Hmake & [Hok _] & Hnames & _).
    assert (is_Some (dict_lookup (field_info data) (name arg))) as [e He].
    { apply dict_lookup_is_Some. unfold field_names in Hnames. rewrite Hnames.
      apply elem_of_first_occurrences. by apply elem_of_field_arg_names. }
    exists data. split; [done|].
    specialize (Hok _ _ He). unfold field_entry_ok in Hok.
    case_bool_decide; [by subst|]. destruct Hok as (info & -> & Hacc). by exists info.
Qed.

(** C4 (as amended): when every referenced argument has the declaration
    that the function looks up, which is exactly when the function
    returns, every argument of the signature listed as unreferenced has a
    [None] entry in [field_info] (a field) or in [parameter_info]
    (otherwise), and the keys of both dictionaries are the field names and
    the parameter names of the signature in signature order, each at its
    first occurrence. *)
Theorem unreferenced_arguments_keep_their_place (implementation_ir : IR) :
  declarations_complete implementation_ir →
  ∃ data,
    make_args_data_from_iir to_boundary dtype_of implementation_ir = Ok data ∧
    (∀ arg, arg ∈ api_signature implementation_ir →
       name arg ∈ unreferenced implementation_ir →
       if bool_decide (is_Some (fields implementation_ir !! name arg))
       then dict_lookup (field_info data) (name arg) = Some None
       else dict_lookup (parameter_info data) (name arg) = Some None) ∧
    field_names data =
      first_occurrences (field_arg_names implementation_ir (api_signature implementation_ir)) ∧
    parameter_names data =
      first_occurrences (parameter_arg_names implementation_ir (api_signature implementation_ir)) ∧
    (NoDup (name <$> api_signature implementation_ir) →
       field_names data = field_arg_names implementation_ir (api_signature implementation_ir) ∧
       parameter_names data =
         parameter_arg_names implementation_ir (api_signature implementation_ir)).
Proof.
  intros Hdecl.
  destruct (make_args_data_from_iir_spec _ Hdecl) as (data & Hmake & [Hf Hp] & Hfn & Hpn & _).
  exists data. split; [done|]. split; [|split; [done|split; [done|]]].
  - intros arg Hin Hunref. case_bool_decide as Hfield.
    + assert (is_Some (dict_lookup (field_info data) (name arg))) as [e He].
      { apply dict_lookup_is_Some. unfold field_names in Hfn. rewrite Hfn.
        apply elem_of_first_occurrences. by apply elem_of_field_arg_names. }
      specialize (Hf _ _ He). unfold field_entry_ok in Hf.
      rewrite bool_decide_eq_true_2 in Hf by done. by subst.
    + assert (is_Some (dict_lookup (parameter_info data) (name arg))) as [e He].
      { apply dict_lookup_is_Some. unfold parameter_names in Hpn. rewrite Hpn.
        apply elem_of_first_occurrences. by apply elem_of_parameter_arg_names. }
      specialize (Hp _ _ He). unfold parameter_entry_ok in Hp.
      rewrite bool_decide_eq_true_2 in Hp by done. by subst.
  - intros Hnodup. rewrite Hfn, Hpn.
    split; apply first_occurrences_NoDup; by apply NoDup_List_filter.
Qed.

(** **** The unbound generator *)

Lemma call_without_builder_keeps_unbound (g : @BaseModuleGenerator Boundary Axes Dtype StencilBuilder)
    (datas : list Data) :
  _builder g = None →
  _builder (foldl (λ g d, (BaseModuleGenerator_call class_name render_rest g d None).2)
              g datas) = None.
Proof.
  revert g. induction datas as [|d datas IH]; intros g Hg; simpl; [done|].
  by apply IH.
Qed.

(** C9: a generator constructed without a builder and then called any
    number of times without one has no builder; reading its [builder]
    property raises the [RuntimeError], and so does a further call without
    a builder, instead of returning a module source. *)
Theorem unbound_builder_raises (datas : list Data) (data : Data) :
  let g := foldl (λ g d, (BaseModuleGenerator_call class_name render_rest g d None).2)
             (BaseModuleGenerator_init None) datas in
  builder g = Raise (RuntimeError "Builder attribute not initialized!") ∧
  (BaseModuleGenerator_call class_name render_rest g data None).1
    = Raise (RuntimeError "Builder attribute not initialized!").
Proof.
  intros g.
  assert (_builder g = None) as Hg by by apply call_without_builder_keeps_unbound.
  unfold BaseModuleGenerator_call, generate_class_name, builder. simpl. by rewrite Hg.
Qed.

(** **** The content of the entries *)

Lemma record_arg_exact (implementation_ir : IR) (data data' : Data) (arg : ArgumentInfo) :
  record_arg to_boundary dtype_of implementation_ir (collect_out_fields implementation_ir)
    data arg = Ok data' →
  if bool_decide (is_Some (fields implementation_ir !! name arg)) then
    field_info data' =
      dict_set (field_info data) (name arg)
        (expected_field_info to_boundary dtype_of implementation_ir (name arg)) ∧
    parameter_info data' = parameter_info data
  else
    parameter_info data' =
      dict_set (parameter_info data) (name arg)
        (expected_parameter_info dtype_of implementation_ir (name arg)) ∧
    field_info data' = field_info data.
Proof.
  unfold record_arg, expected_field_info, expected_parameter_info, subscript, access_kind_of.
  destruct (bool_decide (is_Some (fields implementation_ir !! name arg))).
  - case_bool_decide as Hunref.
    + rewrite (bool_decide_eq_false_2 (name arg ∈ unreferenced implementation_ir)) by done.
      destruct (fields implementation_ir !! name arg) as [decl|]; [|done].
      destruct (fields_extents implementation_ir !! name arg) as [ext|]; [|done].
      by intros [= <-].
    + rewrite (bool_decide_eq_true_2 (name arg ∈ unreferenced implementation_ir))
        by (by destruct (decide (name arg ∈ unreferenced implementation_ir))).
      by intros [= <-].
  - case_bool_decide as Hunref.
    + rewrite (bool_decide_eq_false_2 (name arg ∈ unreferenced implementation_ir)) by done.
      destruct (parameters implementation_ir !! name arg) as [decl|]; [|done].
      by intros [= <-].
    + rewrite (bool_decide_eq_true_2 (name arg ∈ unreferenced implementation_ir))
        by (by destruct (decide (name arg ∈ unreferenced implementation_ir))).
      by intros [= <-].
Qed.

Lemma record_args_exact (implementation_ir : IR) (args : list ArgumentInfo)
    (data data' : Data) :
  record_args to_boundary dtype_of implementation_ir (collect_out_fields implementation_ir)
    data args = Ok data' →
  (∀ n e, dict_lookup (field_info data) n = Some e →
          e = expected_field_info to_boundary dtype_of implementation_ir n) →
  (∀ n e, dict_lookup (parameter_info data) n = Some e →
          e = expected_parameter_info dtype_of implementation_ir n) →
  (∀ n e, dict_lookup (field_info data') n = Some e →
          e = expected_field_info to_boundary dtype_of implementation_ir n) ∧
  (∀ n e, dict_lookup (parameter_info data') n = Some e →
          e = expected_parameter_info dtype_of implementation_ir n).
Proof.
  revert data. induction args as [|arg args IH]; intros data; simpl.
  - by intros [= <-].
  - destruct (record_arg _ _ _ _ data arg) as [data1 | e] eqn:Hrec; [|done].
    intros Hrest Hf Hp. apply (IH _ Hrest); apply record_arg_exact in Hrec;
      destruct (bool_decide (is_Some (fields implementation_ir !! name arg)));
      destruct Hrec as [E1 E2]; rewrite ?E1, ?E2; try done.
    + intros n e'. destruct (decide (name arg = n)) as [<- | Hne].
      * rewrite dict_lookup_set_eq. by intros [= <-].
      * rewrite dict_lookup_set_ne by done. apply Hf.
    + intros n e'. destruct (decide (name arg = n)) as [<- | Hne].
      * rewrite dict_lookup_set_eq. by intros [= <-].
      * rewrite dict_lookup_set_ne by done. apply Hp.
Qed.

Lemma make_args_data_from_iir_inv (implementation_ir : IR) (data : Data) :
  make_args_data_from_iir to_boundary dtype_of implementation_ir = Ok data →
  declarations_complete implementation_ir ∧
  field_names data =
    first_occurrences (field_arg_names implementation_ir (api_signature implementation_ir)) ∧
  parameter_names data =
    first_occurrences
      (parameter_arg_names implementation_ir (api_signature implementation_ir)) ∧
  (∀ n e, dict_lookup (field_info data) n = Some e →
          e = expected_field_info to_boundary dtype_of implementation_ir n) ∧
  (∀ n e, dict_lookup (parameter_info data) n = Some e →
          e = expected_parameter_info dtype_of implementation_ir n).
Proof.
  intros Hmake.
  assert (declarations_complete implementation_ir) as Hdecl
    by (apply make_args_data_from_iir_returns_iff; by eexists).
  destruct (make_args_data_from_iir_spec _ Hdecl) as (data0 & Hmake0 & _ & Hfn & Hpn & _).
  rewrite Hmake in Hmake0. injection Hmake0 as <-.
  split; [done|]. split; [done|]. split; [done|].
  unfold make_args_data_from_iir in Hmake.
  destruct (record_args _ _ _ _ _ _) as [data1 | e] eqn:Hrec; [|done].
  injection Hmake as <-. simpl.
  apply (record_args_exact _ _ _ _ Hrec); by intros n e.
Qed.

(** X16: the entry of a referenced argument when the function returns. A
    field argument has a [FieldInfo] with the computed access kind, the
    boundary of its extent and the axes and dtype of its declaration; any
    other argument has a [ParameterInfo] with the dtype of its parameter
    declaration. *)
Theorem referenced_argument_info
    (implementation_ir : IR) (data : Data) (arg : ArgumentInfo) :
  make_args_data_from_iir to_boundary dtype_of implementation_ir = Ok data →
  arg ∈ api_signature implementation_ir →
  name arg ∉ unreferenced implementation_ir →
  match fields implementation_ir !! name arg with
  | Some decl =>
      ∃ extent,
        fields_extents implementation_ir !! name arg = Some extent ∧
        dict_lookup (field_info data) (name arg) =
          Some (Some {| access := access_kind_of (collect_out_fields implementation_ir) arg;
                        boundary := to_boundary extent;
                        axes := fd_axes decl;
                        fi_dtype := dtype_of (fd_data_type decl) |}) ∧
        dict_lookup (parameter_info data) (name arg) = None
  | None =>
      ∃ decl,
        parameters implementation_ir !! name arg = Some decl ∧
        dict_lookup (parameter_info data) (name arg) =
          Some (Some {| pi_dtype := dtype_of (vd_data_type decl) |}) ∧
        dict_lookup (field_info data) (name arg) = None
  end.
Proof.
  intros (Hdecl & Hfn & Hpn & Hf & Hp)%make_args_data_from_iir_inv Hin Hunref.
  specialize (Hdecl arg Hin Hunref).
  assert (∀ {V} (d : list (string * V)) n, n ∉ dict_keys d → dict_lookup d n = None)
    as Hnotin.
  { intros V d n Hn. destruct (dict_lookup d n) eqn:E; [|done].
    exfalso. apply Hn, dict_lookup_is_Some. by eexists. }
  destruct (fields implementation_ir !! name arg) as [decl|] eqn:Hfield.
  - rewrite bool_decide_eq_true_2 in Hdecl by by eexists.
    destruct Hdecl as [ext Hext]. exists ext. split; [done|].
    assert (is_Some (dict_lookup (field_info data) (name arg))) as [e He].
    { apply dict_lookup_is_Some. unfold field_names in Hfn. rewrite Hfn.
      apply elem_of_first_occurrences, elem_of_field_arg_names; [done | by eexists]. }
    split.
    + rewrite He. f_equal. rewrite (Hf _ _ He). unfold expected_field_info, access_kind_of.
      rewrite bool_decide_eq_false_2 by done. by rewrite Hfield, Hext.
    + apply Hnotin. unfold parameter_names in Hpn. rewrite Hpn.
      rewrite elem_of_first_occurrences. unfold parameter_arg_names.
      rewrite list_elem_of_In, List.filter_In. intros [_ Hb].
      rewrite bool_decide_eq_true_2 in Hb by by eexists. done.
  - rewrite bool_decide_eq_false_2 in Hdecl by (by intros [? ?]).
    destruct Hdecl as [decl Hparam]. exists decl. split; [done|].
    assert (is_Some (dict_lookup (parameter_info data) (name arg))) as [e He].
    { apply dict_lookup_is_Some. unfold parameter_names in Hpn. rewrite Hpn.
      apply elem_of_first_occurrences, elem_of_parameter_arg_names; [done|].
      rewrite Hfield. by intros [? ?]. }
    split.
    + rewrite He. f_equal. rewrite (Hp _ _ He). unfold expected_parameter_info.
      rewrite bool_decide_eq_false_2 by done. by rewrite Hparam.
    + apply Hnotin. unfold field_names in Hfn. rewrite Hfn.
      rewrite elem_of_first_occurrences. unfold field_arg_names.
      rewrite list_elem_of_In, List.filter_In. intros [_ Hb].
      apply bool_decide_eq_true in Hb. rewrite Hfield in Hb. by destruct Hb.
Qed.

(** **** Which names have an entry *)

Lemma first_occurrences_is_NoDup (l : list string) : NoDup (first_occurrences l).
Proof.
  induction l as [|x l IH]; simpl; [constructor|]. constructor.
  - rewrite list_elem_of_In, List.filter_In. intros [_ Hx].
    by rewrite String.eqb_refl in Hx.
  - by apply NoDup_List_filter.
Qed.

(** X17: when the function returns, the keys of [field_info] are the
    names of the signature that are fields and the keys of
    [parameter_info] are the other names of the signature, no key occurs
    twice and none is in both dictionaries. A field that only the stages
    mention, a temporary for instance, has no entry. *)
Theorem info_keys_partition_signature (implementation_ir : IR) (data : Data) :
  make_args_data_from_iir to_boundary dtype_of implementation_ir = Ok data →
  NoDup (field_names data) ∧ NoDup (parameter_names data) ∧
  (∀ n, n ∈ field_names data ↔
        n ∈ (name <$> api_signature implementation_ir) ∧
        is_Some (fields implementation_ir !! n)) ∧
  (∀ n, n ∈ parameter_names data ↔
        n ∈ (name <$> api_signature implementation_ir) ∧
        fields implementation_ir !! n = None) ∧
  (∀ n, n ∈ field_names data → n ∉ parameter_names data).
Proof.
  intros (_ & Hfn & Hpn & _)%make_args_data_from_iir_inv.
  assert (∀ n, n ∈ field_names data ↔
               n ∈ (name <$> api_signature implementation_ir) ∧
               is_Some (fields implementation_ir !! n)) as Hf.
  { intros n. rewrite Hfn, elem_of_first_occurrences. unfold field_arg_names.
    rewrite list_elem_of_In, List.filter_In, <- list_elem_of_In.
    by rewrite bool_decide_eq_true. }
  assert (∀ n, n ∈ parameter_names data ↔
               n ∈ (name <$> api_signature implementation_ir) ∧
               fields implementation_ir !! n = None) as Hp.
  { intros n. rewrite Hpn, elem_of_first_occurrences. unfold parameter_arg_names.
    rewrite list_elem_of_In, List.filter_In, <- list_elem_of_In.
    rewrite negb_true_iff, bool_decide_eq_false, <- eq_None_not_Some. done. }
  split; [rewrite Hfn; apply first_occurrences_is_NoDup|].
  split; [rewrite Hpn; apply first_occurrences_is_NoDup|].
  split; [done|]. split; [done|].
  intros n [_ [decl Hdecl]]%Hf [_ Hnone]%Hp. congruence.
Qed.

(** **** How the function fails *)

Lemma record_args_raises (implementation_ir : IR) (args : list ArgumentInfo)
    (data : Data) (e : exn) :
  record_args to_boundary dtype_of implementation_ir (collect_out_fields implementation_ir)
    data args = Raise e →
  ∃ arg, arg ∈ args ∧ (name arg ∉ unreferenced implementation_ir) ∧
         e = KeyError (name arg) ∧
         match fields implementation_ir !! name arg with
         | Some _ => fields_extents implementation_ir !! name arg = None
         | None => parameters implementation_ir !! name arg = None
         end.
Proof.
  revert data. induction args as [|arg args IH]; intros data; simpl; [done|].
  destruct (record_arg _ _ _ _ data arg) as [data1 | e1] eqn:Hrec.
  - intros (arg' & Hin & H)%IH. exists arg'. split; [by apply list_elem_of_further | done].
  - intros [= ->]. exists arg. split; [apply list_elem_of_here|].
    unfold record_arg, subscript in Hrec.
    destruct (fields implementation_ir !! name arg) as [decl|] eqn:Hfield.
    + rewrite bool_decide_eq_true_2 in Hrec by by eexists.
      case_bool_decide as Hunref; [|done]. split; [done|].
      destruct (fields_extents implementation_ir !! name arg); [done|].
      by injection Hrec as <-.
    + rewrite bool_decide_eq_false_2 in Hrec by (by intros [? ?]).
      case_bool_decide as Hunref; [|done]. split; [done|].
      destruct (parameters implementation_ir !! name arg); [done|].
      by injection Hrec as <-.
Qed.

(** X18: the function raises only a [KeyError], whose key is the name of
    an argument of the signature that is not listed as unreferenced and
    lacks the declaration that is looked up: the extent for a field, the
    parameter declaration otherwise. *)
Theorem make_args_data_from_iir_raises (implementation_ir : IR) (e : exn) :
  make_args_data_from_iir to_boundary dtype_of implementation_ir = Raise e →
  ∃ arg, arg ∈ api_signature implementation_ir ∧
         (name arg ∉ unreferenced implementation_ir) ∧
         e = KeyError (name arg) ∧
         match fields implementation_ir !! name arg with
         | Some _ => fields_extents implementation_ir !! name arg = None
         | None => parameters implementation_ir !! name arg = None
         end.
Proof.
  unfold make_args_data_from_iir.
  destruct (record_args _ _ _ _ _ _) as [data | e1] eqn:Hrec; [done|].
  intros [= <-]. by eapply record_args_raises.
Qed.

(** **** What of the stages matters *)

Lemma record_args_congruence (ir1 ir2 : IR) (out : gset string) (args : list ArgumentInfo)
    (data : Data) :
  fields ir1 = fields ir2 → parameters ir1 = parameters ir2 →
  fields_extents ir1 = fields_extents ir2 → unreferenced ir1 = unreferenced ir2 →
  record_args to_boundary dtype_of ir1 out data args
  = record_args to_boundary dtype_of ir2 out data args.
Proof.
  intros Hf Hp He Hu. revert data. induction args as [|arg args IH]; intros data; [done|].
  simpl. unfold record_arg. rewrite Hf, Hp, He, Hu.
  match goal with |- match ?r with _ => _ end = _ => destruct r as [data1|]; [apply IH | done] end.
Qed.

(** X19: the result depends on the stages only through the set of fields
    that some accessor writes: two implementation IRs with the same
    signature, declarations, extents and unreferenced names, and the same
    written fields, give the same result, whatever the order, grouping or
    repetition of their accessors. *)
Theorem result_depends_on_written_fields (ir1 ir2 : IR) :
  api_signature ir1 = api_signature ir2 → fields ir1 = fields ir2 →
  parameters ir1 = parameters ir2 → fields_extents ir1 = fields_extents ir2 →
  unreferenced ir1 = unreferenced ir2 →
  (∀ f, has_write_access ir1 f ↔ has_write_access ir2 f) →
  make_args_data_from_iir to_boundary dtype_of ir1
  = make_args_data_from_iir to_boundary dtype_of ir2.
Proof.
  intros Hs Hf Hp He Hu Hw. unfold make_args_data_from_iir.
  assert (collect_out_fields ir1 = collect_out_fields ir2) as ->.
  { apply set_eq. intros f. by rewrite !collect_out_fields_spec. }
  rewrite Hs, Hu. by rewrite (record_args_congruence ir1 ir2).
Qed.

(** **** The signature of the generated stencil *)

Context (arg_default : ArgumentInfo → option string).
Context (definition_api_signature : StencilBuilder → list ArgumentInfo).
Context (definition_api_fields : StencilBuilder → list string).
Context (has_multi_stages has_effect : StencilBuilder → bool).
Context (text_of_lines : list string → string) (text_of_string : string → string).
Context (render_module :
  Data → StencilBuilder → string → string → string → result string).

Lemma signature_loop (api : list ArgumentInfo) (args keyword_args : list string) :
  foldl (signature_step arg_default) (args, keyword_args) api =
  ((args ++ (signature_entry arg_default <$> List.filter (λ a, negb (is_keyword a)) api))%list,
   (keyword_args ++ (signature_entry arg_default <$> List.filter is_keyword api))%list).
Proof.
  revert args keyword_args. induction api as [|a api IH]; intros args keyword_args; simpl.
  - by rewrite !app_nil_r.
  - unfold signature_step at 2. destruct (is_keyword a); cbn [fst snd negb];
      rewrite IH; cbn [fmap list_fmap]; by rewrite <- ?app_assoc.
Qed.

(** X20: the layout of [generate_signature] for a bound generator: the
    entries of the positional arguments in signature order, then, only
    when there is a keyword argument, ["*"] and the entries of the keyword
    arguments in signature order, joined by [", "]; an entry is the name,
    followed by [=] and the default when the argument has one. *)
Theorem generate_signature_layout
    (self : @BaseModuleGenerator Boundary Axes Dtype StencilBuilder) (b : StencilBuilder) :
  builder self = Ok b →
  let api := definition_api_signature b in
  let positional := signature_entry arg_default <$> List.filter (λ a, negb (is_keyword a)) api in
  let keyword := signature_entry arg_default <$> List.filter is_keyword api in
  generate_signature arg_default definition_api_signature self =
    Ok (String.concat ", "
          (positional ++ match keyword with [] => [] | _ :: _ => "*" :: keyword end)%list).
Proof.
  intros Hb api positional keyword. unfold generate_signature. rewrite Hb.
  rewrite signature_loop. cbn [fst snd app]. fold api positional keyword.
  destruct keyword as [|k keyword']; simpl; [by rewrite app_nil_r | done].
Qed.

(** **** The arguments of [run_computation] *)

Lemma run_args_loop (unref : gset string) (api_fields : list string)
    (signature : list ArgumentInfo) (args : list string) :
  foldl (run_args_step unref api_fields) args signature =
  (args ++ (signature ≫= λ arg, run_args_step unref api_fields [] arg))%list.
Proof.
  revert args. induction signature as [|a signature IH]; intros args; simpl.
  - by rewrite app_nil_r.
  - rewrite IH. rewrite app_assoc. f_equal.
    unfold run_args_step. repeat case_bool_decide; simpl; by rewrite <- ?app_assoc, ?app_nil_r.
Qed.

(** X21: the list that [PyExtModuleGenerator.generate_implementation]
    passes to [run_computation]. It is, for the arguments of the signature
    that are not listed as unreferenced, in signature order and once per
    occurrence, the name of the argument, followed directly by its origin
    entry when the argument is an API field. So an entry is such a name
    or such an origin entry, every such name is passed, and an
    unreferenced argument contributes nothing. *)
Theorem run_args_are_referenced
    (unref : gset string) (api_fields : list string) (signature : list ArgumentInfo) :
  run_args unref api_fields signature =
    (List.filter (λ arg, bool_decide (name arg ∉ unref)) signature ≫= λ arg,
       name arg :: (if bool_decide (name arg ∈ api_fields)
                    then [origin_entry (name arg)] else [])) ∧
  (∀ s, s ∈ run_args unref api_fields signature ↔
        ∃ arg, arg ∈ signature ∧ (name arg ∉ unref) ∧
               (s = name arg ∨ (name arg ∈ api_fields ∧ s = origin_entry (name arg)))) ∧
  ((∀ arg, arg ∈ signature → name arg ∈ unref) → run_args unref api_fields signature = []).
Proof.
  split.
  { unfold run_args. rewrite run_args_loop. cbn [app].
    induction signature as [|a signature IH]; [done|].
    cbn [List.filter]. rewrite bind_cons, IH. unfold run_args_step at 1.
    case_bool_decide; [|done]. rewrite bind_cons. f_equal. by case_bool_decide. }
  assert (∀ s, s ∈ run_args unref api_fields signature ↔
               ∃ arg, arg ∈ signature ∧ (name arg ∉ unref) ∧
                      (s = name arg ∨ (name arg ∈ api_fields ∧ s = origin_entry (name arg))))
    as Hspec; [|split; [exact Hspec|]].
  - unfold run_args. rewrite run_args_loop. simpl.
    intros s. rewrite list_elem_of_bind. split.
    + intros (arg & Hs & Hin). exists arg. split; [done|].
      unfold run_args_step in Hs. case_bool_decide as Hunref; [|by apply elem_of_nil in Hs].
      split; [done|]. simpl in Hs. case_bool_decide as Hfield.
      * apply elem_of_cons in Hs as [-> | Hs]; [by left|].
        apply list_elem_of_singleton in Hs as ->. by right.
      * apply list_elem_of_singleton in Hs as ->. by left.
    + intros (arg & Hin & Hunref & Hs). exists arg. split; [|done].
      unfold run_args_step. rewrite bool_decide_eq_true_2 by done. simpl.
      destruct Hs as [-> | [Hfield ->]].
      * case_bool_decide; apply list_elem_of_here.
      * rewrite bool_decide_eq_true_2 by done. apply list_elem_of_further, list_elem_of_here.
  - intros Hall. apply elem_of_nil_inv. intros s (arg & Hin & Hunref & _)%Hspec.
    by apply Hunref, Hall.
Qed.

(** **** Calling the generators *)

Abbreviation PyExt_call :=
  (PyExtModuleGenerator_call class_name definition_api_signature definition_api_fields
     has_multi_stages has_effect text_of_lines text_of_string render_module).

(** X22: [PyExtModuleGenerator.__call__] reads its two keyword arguments
    before anything else. Without [pyext_module_name] it raises
    [KeyError] and the generator is unchanged; with it but without
    [pyext_file_path] it raises [KeyError] having stored the module name
    only. In both cases a builder passed to the call is not bound and the
    argument data is not stored. *)
Theorem PyExt_call_missing_kwargs
    (self : @PyExtModuleGenerator Boundary Axes Dtype StencilBuilder) (data : Data)
    (builder_arg : option StencilBuilder) (kwargs : gmap string string) :
  (kwargs !! "pyext_module_name" = None →
   PyExt_call self data builder_arg kwargs = (Raise (KeyError "pyext_module_name"), self)) ∧
  (∀ module_name,
     kwargs !! "pyext_module_name" = Some module_name →
     kwargs !! "pyext_file_path" = None →
     PyExt_call self data builder_arg kwargs =
       (Raise (KeyError "pyext_file_path"),
        {| base := base self; pyext_module_name := module_name;
           pyext_file_path := pyext_file_path self |})) ∧
  (kwargs !! "pyext_module_name" = None ∨ kwargs !! "pyext_file_path" = None →
   base (PyExt_call self data builder_arg kwargs).2 = base self).
Proof.
  unfold PyExtModuleGenerator_call. split; [|split].
  - by intros ->.
  - by intros module_name -> ->.
  - intros [-> | Hpath]; [done|].
    destruct (kwargs !! "pyext_module_name"); [|done]. by rewrite Hpath.
Qed.

(** X23: a [PyExtModuleGenerator] is created without a builder, and a
    call that passes none raises the [RuntimeError] of the unbound
    builder, from [generate_imports]; the call has by then stored its
    keyword arguments and the argument data. *)
Theorem PyExt_call_unbound (data : Data) (kwargs : gmap string string)
    (module_name file_path : string) :
  kwargs !! "pyext_module_name" = Some module_name →
  kwargs !! "pyext_file_path" = Some file_path →
  builder (base (@PyExtModuleGenerator_init Boundary Axes Dtype StencilBuilder))
    = Raise (RuntimeError "Builder attribute not initialized!") ∧
  PyExt_call PyExtModuleGenerator_init data None kwargs =
    (Raise (RuntimeError "Builder attribute not initialized!"),
     {| base := {| _builder := None; args_data := data |};
        pyext_module_name := module_name; pyext_file_path := file_path |}).
Proof.
  intros Hm Hp. split; [done|]. unfold PyExtModuleGenerator_call. by rewrite Hm, Hp.
Qed.

Lemma call_without_builder_keeps_bound
    (g : @BaseModuleGenerator Boundary Axes Dtype StencilBuilder)
    (b : StencilBuilder) (datas : list Data) :
  _builder g = Some b →
  _builder (foldl (λ g d, (BaseModuleGenerator_call class_name render_rest g d None).2)
              g datas) = Some b.
Proof.
  revert g. induction datas as [|d datas IH]; intros g Hg; simpl; [done|].
  by apply IH.
Qed.

(** X24: a builder passed to [BaseModuleGenerator.__call__] replaces the
    one the generator had and stays bound: that call, and every later call
    that passes no builder, renders with this builder and with the
    argument data of the call itself. *)
Theorem builder_stays_bound
    (g : @BaseModuleGenerator Boundary Axes Dtype StencilBuilder)
    (b : StencilBuilder) (data data' : Data) (datas : list Data) :
  let first := BaseModuleGenerator_call class_name render_rest g data (Some b) in
  let later :=
    foldl (λ g d, (BaseModuleGenerator_call class_name render_rest g d None).2)
      first.2 datas in
  first.1 = render_rest data b (class_name b) ∧
  builder first.2 = Ok b ∧
  builder later = Ok b ∧
  (BaseModuleGenerator_call class_name render_rest later data' None).1
    = render_rest data' b (class_name b).
Proof.
  intros first later.
  assert (_builder later = Some b) as Hlater
    by by apply call_without_builder_keeps_bound.
  unfold first, BaseModuleGenerator_call, generate_class_name, builder. simpl.
  by rewrite Hlater.
Qed.

End ModuleGeneratorProperties.

Section BuildProperties.
Import Build.
Context (C : Collaborators).

Lemma existsb_is_str (k : string) (l : list Value) :
  existsb (is_str k) l = true ↔ VStr k ∈ l.
Proof.
  rewrite List.existsb_exists. split.
  - intros (v & Hin%list_elem_of_In & Hv). destruct v; try done. simpl in Hv.
    by apply String.eqb_eq in Hv as ->.
  - intros Hin. exists (VStr k). split; [by apply list_elem_of_In|]. simpl.
    apply String.eqb_refl.
Qed.

Lemma source_stage_is_final_frame (ctx : gmap string Value) :
  (SourceStage_is_final C ctx).2 = ctx.
Proof.
  unfold SourceStage_is_final, bind, getitem, lift, get, ret.
  destruct (ctx !! "backend") as [backend|]; simpl; [|done].
  destruct (BINDINGS_LANGUAGES C backend) as [languages|e]; simpl; [|done].
  destruct (truthy languages); simpl; [|done].
  by destruct (truthy (default VNone (ctx !! "bindings"))).
Qed.

(** C6: [SourceStage.is_final()] returns [True] exactly when the context
    has a backend whose [BINDINGS_LANGUAGES] is falsy or whose context has
    no truthy [bindings] entry, and [False] exactly when both are truthy;
    it leaves the context as it is, and the stage after [SourceStage] is
    [BindingsStage]. *)
Theorem source_stage_is_final_spec (ctx : gmap string Value) :
  ((SourceStage_is_final C ctx).1 = Ok true ↔
     ∃ backend languages,
       ctx !! "backend" = Some backend ∧ BINDINGS_LANGUAGES C backend = Ok languages ∧
       (truthy languages = false ∨ truthy (default VNone (ctx !! "bindings")) = false)) ∧
  ((SourceStage_is_final C ctx).1 = Ok false ↔
     ∃ backend languages,
       ctx !! "backend" = Some backend ∧ BINDINGS_LANGUAGES C backend = Ok languages ∧
       truthy languages = true ∧ truthy (default VNone (ctx !! "bindings")) = true) ∧
  (SourceStage_is_final C ctx).2 = ctx ∧
  is_final C SourceStage = SourceStage_is_final C ∧
  next_stage SourceStage = Some BindingsStage.
Proof.
  unfold SourceStage_is_final, bind, getitem, lift, get, ret.
  destruct (ctx !! "backend") as [backend|] eqn:Hb; simpl.
  - destruct (BINDINGS_LANGUAGES C backend) as [languages|e] eqn:Hl; simpl.
    + destruct (truthy languages) eqn:Ht; simpl.
      * destruct (truthy (default VNone (ctx !! "bindings"))) eqn:Hbind; simpl;
          (repeat split; try done).
        -- intros (? & ? & [= <-] & Hl' & [? | ?]); [|done].
           rewrite Hl in Hl'. injection Hl' as <-. congruence.
        -- intros _. by exists backend, languages.
        -- intros _. exists backend, languages. by eauto.
        -- intros (? & ? & [= <-] & Hl' & _ & ?). done.
      * repeat split; try done.
        -- intros _. exists backend, languages. by eauto.
        -- intros (? & ? & [= <-] & Hl' & ? & _). rewrite Hl in Hl'.
           injection Hl' as <-. congruence.
    + repeat split; try done.
      * intros (? & ? & [= <-] & Hl' & _). congruence.
      * intros (? & ? & [= <-] & Hl' & _). congruence.
  - repeat split; try done.
    + by intros (? & ? & ? & _).
    + by intros (? & ? & ? & _).
Qed.

(** C10: when the [bindings] entry of the context is a list that does not
    contain ["python"], [BindingsStage._make] (and so [make]) returns
    without an exception and leaves the context exactly as it was. *)
Theorem bindings_stage_without_python_is_noop
    (ctx : gmap string Value) (bindings : list Value) :
  ctx !! "bindings" = Some (VList bindings) →
  VStr "python" ∉ bindings →
  BindingsStage__make C ctx = (Ok tt, ctx) ∧
  make C BindingsStage ctx = (Ok BindingsStage, ctx).
Proof.
  intros Hb Hpy.
  assert (BindingsStage__make C ctx = (Ok tt, ctx)) as Hmake.
  { unfold BindingsStage__make, bind, getitem, lift. rewrite Hb. simpl.
    destruct (existsb (is_str "python") bindings) eqn:E; [|done].
    by apply existsb_is_str in E. }
  split; [done|]. unfold make, bind. simpl. by rewrite Hmake.
Qed.

(** **** Computations that only move the context along a preorder *)

Section Respects.
Context (R : relation (gmap string Value)) `{!Reflexive R, !Transitive R}.

Lemma respects_ret {A} (a : A) : respects R (ret a).
Proof. intros ctx. simpl. reflexivity. Qed.

Lemma respects_lift {A} (r : result A) : respects R (lift r).
Proof. intros ctx. simpl. reflexivity. Qed.

Lemma respects_getitem (key : string) : respects R (getitem key).
Proof. intros ctx. unfold getitem. destruct (ctx !! key); simpl; reflexivity. Qed.

Lemma respects_get (key : string) (dflt : Value) : respects R (get key dflt).
Proof. intros ctx. simpl. reflexivity. Qed.

Lemma respects_bind {A B} (c : M A) (k : A → M B) :
  respects R c → (∀ a, respects R (k a)) → respects R (bind c k).
Proof.
  intros Hc Hk ctx. unfold bind. specialize (Hc ctx).
  destruct (c ctx) as [[a | e] ctx1]; simpl in *; [|done].
  etransitivity; [exact Hc | apply Hk].
Qed.

Lemma respects_when (b : bool) (c : M unit) : respects R c → respects R (when b c).
Proof. intros Hc. destruct b; [done | apply respects_ret]. Qed.

End Respects.

Ltac respects_step Hset :=
  lazymatch goal with
  | |- respects _ (bind _ _) => apply (respects_bind _ _ _); [| intros ?]
  | |- respects _ (ret _) => by apply (respects_ret _ _)
  | |- respects _ (lift _) => by apply (respects_lift _ _)
  | |- respects _ (getitem _) => by apply (respects_getitem _ _)
  | |- respects _ (get _ _) => by apply (respects_get _ _)
  | |- respects _ (when _ _) => apply (respects_when _ _ _)
  | |- respects _ (setitem _ _) =>
      apply Hset; apply list_elem_of_In; simpl; auto 10
  | |- respects _ (if ?b then _ else _) => destruct b
  end.

Lemma make_respects (R : relation (gmap string Value)) `{!Reflexive R, !Transitive R} :
  (∀ key value, key ∈ stage_written_keys → respects R (setitem key value)) →
  ∀ self, respects R (_make C self) ∧ respects R (make C self).
Proof.
  intros Hset self.
  assert (respects R (_make C self)) as Hmake.
  { destruct self; simpl;
      unfold BeginStage__make, IRStage__make, IIRStage__make, SourceStage__make,
        SourceStage__make_py_module, SourceStage__make_lang_src, BindingsStage__make;
      repeat respects_step Hset. }
  split; [done|]. unfold make. apply (respects_bind _ _ _); [done|].
  intros _. by apply (respects_ret _ _).
Qed.

(** **** What the constructor and the stages leave alone *)

#[local] Instance frames_refl : Reflexive frames.
Proof. by intros ctx. Qed.

#[local] Instance frames_trans : Transitive frames.
Proof.
  intros c1 c2 c3 [H12 D12] [H23 D23]. split.
  - intros key Hkey. by rewrite H23, H12.
  - by etransitivity.
Qed.

Lemma setitem_frames (key : string) (value : Value) :
  key ∈ stage_written_keys → respects frames (setitem key value).
Proof.
  intros Hkey ctx. simpl. split.
  - intros key' Hkey'. apply lookup_insert_ne. by intros ->.
  - rewrite dom_insert. apply union_subseteq_r.
Qed.

Lemma set_no_replace_subseteq (key : string) (value : Value) :
  respects (⊆) (_set_no_replace key value).
Proof.
  intros ctx. unfold _set_no_replace.
  destruct (ctx !! key) eqn:E; simpl; [done | by apply insert_subseteq].
Qed.

Lemma set_no_replace_existing (key : string) (value : Value) (ctx : gmap string Value) :
  is_Some (ctx !! key) → _set_no_replace key value ctx = (Ok tt, ctx).
Proof. intros [v Hv]. unfold _set_no_replace. by rewrite Hv. Qed.

Lemma init_body_keeps (definition : Value) (data : gmap string Value) :
  data !! "definition" = None →
  data ⊆ (BuildContext_init_body C definition data).2.
Proof.
  intros Hdef. unfold BuildContext_init_body.
  change (bind (setitem "definition" definition) ?k data)
    with (k tt (<["definition" := definition]> data)).
  etransitivity; [by apply (insert_subseteq data "definition" definition)|].
  cbv beta.
  match goal with |- _ ⊆ (?c _).2 => assert (respects (⊆) c) as Hc end; [|apply Hc].
  repeat first
    [ apply (respects_bind _ _ _); [|intros ?]
    | by apply (respects_getitem _ _)
    | by apply (respects_lift _ _)
    | apply set_no_replace_subseteq ].
Qed.

(** C8: a non-[None] keyword argument of the constructor keeps its value
    in the new context (so a supplied [name] or [module] is not replaced
    by the one derived from the definition); [_set_no_replace] leaves a
    context that has the key as it is; and [make] of every stage, whether
    it returns or raises, removes no key, adds no key other than
    [options_id], [id], [ir], [iir], [generator_options], [src] and
    [bindings_src], and leaves every other key that holds no dictionary
    with the value it had; the identity-defining keys [name], [module],
    [qualified_name] and [definition] keep theirs. *)
Theorem context_keys_first_writer_wins :
  (∀ definition kwargs ctx key value,
     BuildContext_init C definition kwargs = Ok ctx →
     kwargs !! key = Some value → value ≠ VNone →
     ctx !! key = Some value) ∧
  (∀ key value ctx,
     is_Some (ctx !! key) → _set_no_replace key value ctx = (Ok tt, ctx)) ∧
  (∀ self ctx key,
     key ∉ stage_written_keys →
     (ctx !! key = None → (make C self ctx).2 !! key = None) ∧
     (∀ value, ctx !! key = Some value → holds_no_dict value = true →
               (make C self ctx).2 !! key = Some value)) ∧
  (∀ self ctx key,
     key ∈ ["name"; "module"; "qualified_name"; "definition"] →
     (make C self ctx).2 !! key = ctx !! key) ∧
  (∀ self ctx, dom ctx ⊆ dom (make C self ctx).2).
Proof.
  assert (∀ self, respects frames (make C self)) as Hframes.
  { intros self. apply (make_respects frames). intros key value. apply setitem_frames. }
  split; [|split; [|split; [|split]]].
  - intros definition kwargs ctx key value Hinit Hkey Hvalue.
    unfold BuildContext_init in Hinit.
    destruct (bool_decide (is_Some (kwargs !! "definition"))) eqn:Hdef; [done|].
    destruct (bool_decide (is_Some (kwargs !! "self"))); [done|]. simpl in Hinit.
    apply bool_decide_eq_false in Hdef.
    set (data := omap (λ v, if is_none v then None else Some v) kwargs) in *.
    assert (data !! "definition" = None) as Hnodef.
    { unfold data. rewrite lookup_omap. destruct (kwargs !! "definition"); [|done].
      exfalso. apply Hdef. by eexists. }
    pose proof (init_body_keeps definition data Hnodef) as Hsub.
    destruct (BuildContext_init_body C definition data) as [[[]|e] ctx1]; [|done].
    injection Hinit as <-. simpl in Hsub.
    eapply lookup_weaken; [|exact Hsub].
    unfold data. rewrite lookup_omap, Hkey. simpl. by destruct value.
  - intros key value ctx. apply set_no_replace_existing.
  - intros self ctx key Hkey. rewrite (proj1 (Hframes self ctx) key Hkey).
    split; [done | by intros value -> _].
  - intros self ctx key Hkey. apply (Hframes self ctx).
    intros Hw. apply list_elem_of_In in Hkey, Hw. simpl in Hkey, Hw.
    destruct Hkey as [<- | [<- | [<- | [<- | []]]]];
      repeat (destruct Hw as [Hw | Hw]; [discriminate Hw|]); done.
  - intros self ctx. apply (Hframes self ctx).
Qed.

(** **** The order of the stages *)

Lemma make_next_not_final (self cls : Stage) (ctx : gmap string Value) :
  is_final C self ctx = (Ok false, ctx) → next_stage self = Some cls →
  make_next C self ctx =
    match _make C cls ctx with
    | (Ok _, ctx') => (Ok (Some cls), ctx')
    | (Raise e, ctx') => (Raise e, ctx')
    end.
Proof.
  intros Hfinal Hnext. unfold make_next, bind. rewrite Hfinal, Hnext.
  unfold make, bind, ret. by destruct (_make C cls ctx) as [[[]|e] ctx'].
Qed.

Lemma make_next_final (self : Stage) (ctx : gmap string Value) :
  is_final C self ctx = (Ok true, ctx) → make_next C self ctx = (Ok None, ctx).
Proof. intros Hfinal. unfold make_next, bind. by rewrite Hfinal. Qed.

Ltac solve_NoDup :=
  repeat (apply NoDup_cons_2;
          [rewrite ?elem_of_cons, elem_of_nil; intuition discriminate|]);
  apply NoDup_nil_2.

(** C5 (as amended): a build driven from [BeginStage] by at most five
    calls of [make_next] either is aborted by an exception of some stage
    or ends at a stage whose [is_final()] is true and whose [make_next()]
    returns [None]; in both cases the stages obtained are an initial
    segment of Begin, IR, IIR, Source, Bindings, so none occurs twice and
    there are at most 4 transitions. *)
Theorem pipeline_reaches_final_or_aborts (ctx : gmap string Value) :
  ∃ trace outcome ctx',
    run_pipeline C 5 BeginStage ctx = (trace, outcome, ctx') ∧
    trace `prefix_of` [BeginStage; IRStage; IIRStage; SourceStage; BindingsStage] ∧
    NoDup trace ∧
    (length trace - 1 ≤ 4)%nat ∧
    ((∃ e, outcome = Aborted e) ∨
     (outcome = Finished ∧
      ∃ final, last trace = Some final ∧
               (final = SourceStage ∨ final = BindingsStage) ∧
               (is_final C final ctx').1 = Ok true ∧
               make_next C final ctx' = (Ok None, ctx'))).
Proof.
  cbn [run_pipeline].
  rewrite (make_next_not_final BeginStage IRStage) by done.
  destruct (_make C IRStage ctx) as [[[]|e1] c1].
  2:{ eexists _, _, _. split; [done|]. split; [by eexists|]. split; [solve_NoDup|].
      split; [simpl; lia|]. left. by eexists. }
  rewrite (make_next_not_final IRStage IIRStage) by done.
  destruct (_make C IIRStage c1) as [[[]|e2] c2].
  2:{ eexists _, _, _. split; [done|]. split; [by eexists|]. split; [solve_NoDup|].
      split; [simpl; lia|]. left. by eexists. }
  rewrite (make_next_not_final IIRStage SourceStage) by done.
  destruct (_make C SourceStage c2) as [[[]|e3] c3].
  2:{ eexists _, _, _. split; [done|]. split; [by eexists|]. split; [solve_NoDup|].
      split; [simpl; lia|]. left. by eexists. }
  pose proof (source_stage_is_final_frame c3) as Hframe.
  destruct (is_final C SourceStage c3) as [[[|]|e4] c3'] eqn:Hfinal;
    simpl in Hframe, Hfinal; rewrite Hfinal in Hframe; simpl in Hframe; subst c3'.
  - rewrite (make_next_final SourceStage) by done.
    eexists _, _, _. split; [done|]. split; [by eexists|]. split; [solve_NoDup|].
    split; [simpl; lia|]. right. split; [done|]. exists SourceStage.
    split; [done|]. split; [by left|]. split; [simpl; by rewrite Hfinal|].
    by apply make_next_final.
  - rewrite (make_next_not_final SourceStage BindingsStage) by done.
    destruct (_make C BindingsStage c3) as [[[]|e5] c4].
    + rewrite (make_next_final BindingsStage) by done.
      eexists _, _, _. split; [done|]. split; [by eexists|]. split; [solve_NoDup|].
      split; [simpl; lia|]. right. split; [done|]. exists BindingsStage.
      split; [done|]. split; [by right|]. split; [done|].
      by apply make_next_final.
    + eexists _, _, _. split; [done|]. split; [by eexists|]. split; [solve_NoDup|].
      split; [simpl; lia|]. left. by eexists.
  - unfold make_next, bind. simpl. rewrite Hfinal.
    eexists _, _, _. split; [done|]. split; [by eexists|]. split; [solve_NoDup|].
    split; [simpl; lia|]. left. by eexists.
Qed.

(** **** Running a stage a second time *)

Lemma value_setitem_twice (v v' : Value) (k : string) (x : Value) :
  value_setitem v k x = Ok v' → value_setitem v' k x = Ok v'.
Proof.
  destruct v; try done. simpl. intros [= <-]. simpl. by rewrite insert_insert_eq.
Qed.

(** Case analysis along a run that returned: every lookup and every call
    of a collaborator on the way succeeded. *)
Ltac norm_hyp H :=
  repeat first
    [ progress cbn beta iota zeta delta [fst snd default from_option id] in H
    | rewrite lookup_insert_eq in H
    | rewrite lookup_insert_ne in H by done ].

Ltac run_hyp H :=
  repeat (
    norm_hyp H;
    lazymatch type of H with
    | context [match ?m !! ?k with _ => _ end] =>
        let E := fresh "E" in destruct (m !! k) eqn:E
    | context [match ?r with Ok _ => _ | Raise _ => _ end] =>
        let E := fresh "E" in destruct r eqn:E
    | context [if ?b then _ else _] =>
        let E := fresh "E" in destruct b eqn:E
    end;
    try discriminate H);
  norm_hyp H.

(** The same run replayed on the resulting context. *)
Ltac norm_goal :=
  repeat first
    [ progress cbn beta iota zeta delta [fst snd default from_option id]
    | rewrite lookup_insert_eq
    | rewrite lookup_insert_ne by done ].

Ltac run_goal :=
  repeat (
    norm_goal;
    match goal with
    | E : ?m !! ?k = _ |- context [?m !! ?k] => rewrite E
    | E : ?r = Ok _ |- context [?r] => rewrite E
    | E : value_setitem _ ?k ?x = Ok ?v |- context [value_setitem ?v ?k ?x] =>
        rewrite (value_setitem_twice _ _ _ _ E)
    | E : ?b = true |- context [if ?b then _ else _] => rewrite E
    | E : ?b = false |- context [if ?b then _ else _] => rewrite E
    end);
  norm_goal.

Ltac only_tt := repeat match goal with u : unit |- _ => destruct u end.

Ltac solve_map_eq :=
  apply map_eq; intros ?; rewrite !lookup_insert; repeat case_decide; simplify_eq; done.

Lemma IRStage_make_idempotent (ctx ctx' : gmap string Value) :
  IRStage__make C ctx = (Ok tt, ctx') → IRStage__make C ctx' = (Ok tt, ctx').
Proof.
  unfold IRStage__make, bind, getitem, setitem, lift, get.
  intros H. run_hyp H. simplify_eq. run_goal. f_equal. solve_map_eq.
Qed.

Lemma IIRStage_make_idempotent (ctx ctx' : gmap string Value) :
  IIRStage__make C ctx = (Ok tt, ctx') → IIRStage__make C ctx' = (Ok tt, ctx').
Proof.
  unfold IIRStage__make, bind, getitem, setitem, lift, get.
  intros H. run_hyp H. simplify_eq. run_goal. f_equal. solve_map_eq.
Qed.

Lemma SourceStage_make_py_module_idempotent (ctx ctx' : gmap string Value) :
  SourceStage__make_py_module C ctx = (Ok tt, ctx') →
  SourceStage__make_py_module C ctx' = (Ok tt, ctx').
Proof.
  unfold SourceStage__make_py_module, bind, getitem, setitem, lift, get.
  intros H. run_hyp H. simplify_eq. run_goal. f_equal. solve_map_eq.
Qed.

Lemma SourceStage_make_lang_src_idempotent (ctx ctx' : gmap string Value) :
  SourceStage__make_lang_src C ctx = (Ok tt, ctx') →
  SourceStage__make_lang_src C ctx' = (Ok tt, ctx').
Proof.
  unfold SourceStage__make_lang_src, bind, getitem, setitem, lift, get, when, ret.
  intros H. run_hyp H; simplify_eq; run_goal; f_equal; solve_map_eq.
Qed.

Lemma SourceStage_make_idempotent (ctx ctx' : gmap string Value) :
  SourceStage__make C ctx = (Ok tt, ctx') → SourceStage__make C ctx' = (Ok tt, ctx').
Proof.
  intros H.
  assert (ctx' !! "backend" = ctx !! "backend") as Hbackend.
  { pose proof (proj1 (make_respects frames (λ k v, setitem_frames k v) SourceStage) ctx)
      as [Hkeep _].
    simpl in Hkeep. rewrite H in Hkeep. apply Hkeep.
    intros Hw. apply list_elem_of_In in Hw. simpl in Hw.
    repeat (destruct Hw as [Hw | Hw]; [discriminate Hw|]). done. }
  revert H. unfold SourceStage__make, bind, getitem, lift. rewrite Hbackend.
  destruct (ctx !! "backend") as [backend|]; [|done]. simpl.
  destruct (BINDINGS_LANGUAGES C backend) as [languages|]; [|done].
  destruct (negb (truthy languages)).
  - apply SourceStage_make_py_module_idempotent.
  - apply SourceStage_make_lang_src_idempotent.
Qed.

Lemma py_is_not_bindings_cpp (s : string) : s +:+ ".py" ≠ "bindings.cpp".
Proof.
  intros H.
  do 12 (destruct s as [|? s]; [discriminate H|]; simpl in H; injection H as _ H).
  by destruct s.
Qed.

Lemma value_get_carried (ctx : gmap string Value) (cpp : Value) :
  value_get (default (VDict ∅) (ctx !! "bindings_src")) "bindings.cpp" (VStr "") = Ok cpp →
  carried_bindings_cpp ctx = cpp.
Proof.
  unfold carried_bindings_cpp. destruct (ctx !! "bindings_src") as [[]|]; simpl; try done.
  - by intros [= <-].
  - rewrite lookup_empty. by intros [= <-].
Qed.

Lemma BindingsStage_make_again (ctx ctx' : gmap string Value) :
  BindingsStage__make C ctx = (Ok tt, ctx') →
  BindingsStage__make C ctx' = (Ok tt, ctx') ↔
  python_requested ctx = false ∨ carried_bindings_cpp ctx = VStr "".
Proof.
  unfold BindingsStage__make, bind, getitem, setitem, lift, get, when, ret, python_requested.
  intros H. run_hyp H; simplify_eq; run_goal.
  - unfold value_get. rewrite lookup_singleton_ne by done. norm_goal.
    rewrite (value_get_carried _ _ E13). split.
    + intros Heq. right.
      apply (f_equal (λ p, bindings_cpp_of (default VNone (p.2 !! "bindings_src")))) in Heq.
      cbn [snd] in Heq. rewrite !lookup_insert_eq in Heq.
      unfold bindings_cpp_of in Heq. cbn [default from_option id] in Heq.
      rewrite !lookup_singleton_eq in Heq. cbn [default from_option id] in Heq.
      rewrite !lookup_insert_ne in Heq by apply py_is_not_bindings_cpp.
      rewrite !lookup_singleton_eq in Heq. cbn [default from_option id] in Heq.
      by symmetry.
    + intros [? | ->]; [done|]. f_equal. solve_map_eq.
  - split; [intros _; by left | done].
Qed.

Lemma make_returns (self : Stage) (ctx ctx' : gmap string Value) :
  make C self ctx = (Ok self, ctx') ↔ _make C self ctx = (Ok tt, ctx').
Proof.
  unfold make, bind, ret. destruct (_make C self ctx) as [[[]|e] c]; split; congruence.
Qed.

(** C7 (as amended): when [make] of a stage returns, running it again on
    the resulting context returns and leaves that context as it is if and
    only if the stage is not [BindingsStage], or ["python"] is not among
    the requested bindings, or the context carried no ["bindings.cpp"]
    source other than the empty string. *)
Theorem make_again (self : Stage) (ctx ctx' : gmap string Value) :
  make C self ctx = (Ok self, ctx') →
  make C self ctx' = (Ok self, ctx') ↔
  (self = BindingsStage →
   python_requested ctx = false ∨ carried_bindings_cpp ctx = VStr "").
Proof.
  rewrite !make_returns. intros H. destruct self; simpl in *.
  - split; [done|]. intros _. unfold BeginStage__make, ret in *. congruence.
  - split; [done|]. intros _. by apply IRStage_make_idempotent in H.
  - split; [done|]. intros _. by apply IIRStage_make_idempotent in H.
  - split; [done|]. intros _. by apply SourceStage_make_idempotent in H.
  - rewrite (BindingsStage_make_again _ _ H). split; [by intros ? _ | by intros Hc; apply Hc].
Qed.

(** **** The constructor *)

Lemma set_no_replace_insert (key : string) (value : Value) (ctx : gmap string Value) :
  _set_no_replace key value ctx = (Ok tt, <[key := default value (ctx !! key)]> ctx).
Proof.
  unfold _set_no_replace. destruct (ctx !! key) eqn:E; simpl; [|done].
  by rewrite insert_id.
Qed.

Lemma init_body_run (definition : Value) (data : gmap string Value) :
  data !! "definition" = None →
  BuildContext_init_body C definition data =
    let module := default (getattr_module C definition) (data !! "module") in
    let c2 := <["module" := module]> (<["definition" := definition]> data) in
    match attr_name C definition with
    | Raise e => (Raise e, c2)
    | Ok n =>
        let name := default n (data !! "name") in
        let build_info := default (VDict ∅) (data !! "build_info") in
        let c6 :=
          <["build_info" := build_info]>
            (<["qualified_name" :=
                 default (VStr (py_format C module ++ "." ++ py_format C name))
                   (data !! "qualified_name")]>
               (<["externals" := default (VDict ∅) (data !! "externals")]>
                  (<["name" := name]> c2))) in
        match BuildOptions C name module build_info with
        | Raise e => (Raise e, c6)
        | Ok o => (Ok tt, <["options" := default o (data !! "options")]> c6)
        end
    end.
Proof.
  intros Hdef. unfold BuildContext_init_body, bind, setitem, lift, getitem.
  destruct (attr_name C definition) as [n|e];
    repeat first
      [ rewrite set_no_replace_insert
      | progress cbn beta iota zeta
      | rewrite lookup_insert_eq
      | rewrite lookup_insert_ne by done ];
    [|done].
  destruct (BuildOptions C _ _ _); [|done].
  rewrite set_no_replace_insert. by rewrite !lookup_insert_ne by done.
Qed.

(** X1: what [BuildContext(definition, **kwargs)] holds when it returns.
    A keyword argument counts as given when its value is not [None]; the
    context has the definition, each of [module], [name], [externals],
    [build_info], [qualified_name] and [options] with the given value or
    else the derived one (the qualified name being derived from the module
    and name the context ends up with), and every other key exactly when
    it was given. *)
Theorem BuildContext_init_postcondition
    (definition : Value) (kwargs ctx : gmap string Value) :
  BuildContext_init C definition kwargs = Ok ctx →
  let given key := kwargs !! key ≫= λ v, if is_none v then None else Some v in
  ∃ n o module name build_info,
    attr_name C definition = Ok n ∧
    module = default (getattr_module C definition) (given "module") ∧
    name = default n (given "name") ∧
    build_info = default (VDict ∅) (given "build_info") ∧
    BuildOptions C name module build_info = Ok o ∧
    ctx !! "definition" = Some definition ∧
    ctx !! "module" = Some module ∧
    ctx !! "name" = Some name ∧
    ctx !! "externals" = Some (default (VDict ∅) (given "externals")) ∧
    ctx !! "qualified_name" =
      Some (default (VStr (py_format C module ++ "." ++ py_format C name))
              (given "qualified_name")) ∧
    ctx !! "build_info" = Some build_info ∧
    ctx !! "options" = Some (default o (given "options")) ∧
    ∀ key, key ∉ ["definition"; "module"; "name"; "externals"; "qualified_name";
                  "build_info"; "options"] → ctx !! key = given key.
Proof.
  intros Hinit given. unfold BuildContext_init in Hinit.
  destruct (bool_decide (is_Some (kwargs !! "definition"))) eqn:Hdef; [done|].
  destruct (bool_decide (is_Some (kwargs !! "self"))); [done|]. simpl in Hinit.
  apply bool_decide_eq_false in Hdef.
  set (data := omap (λ v, if is_none v then None else Some v) kwargs) in *.
  assert (∀ key, data !! key = given key) as Hgiven.
  { intros key. unfold data, given. by rewrite lookup_omap. }
  assert (data !! "definition" = None) as Hnodef.
  { rewrite Hgiven. unfold given. destruct (kwargs !! "definition"); [|done].
    exfalso. apply Hdef. by eexists. }
  rewrite (init_body_run definition data Hnodef) in Hinit. cbv zeta in Hinit.
  destruct (attr_name C definition) as [n|e]; [|done].
  destruct (BuildOptions C _ _ _) as [o|e] eqn:Ho; [|done].
  injection Hinit as <-. rewrite !Hgiven in Ho.
  exists n, o. eexists _, _, _. repeat (split; [reflexivity|]).
  split; [exact Ho|].
  rewrite <- !Hgiven.
  repeat (split; [by repeat first [rewrite lookup_insert_eq | rewrite lookup_insert_ne by done]|]).
  intros key Hkey. rewrite !lookup_insert_ne; [done|..];
    intros <-; apply Hkey; apply list_elem_of_In; simpl; auto 10.
Qed.

(** X2: how the constructor fails. A keyword argument named [definition]
    or [self] is a [TypeError]; otherwise, when reading
    [definition.__name__] raises, the constructor raises that exception
    even if a [name] is given, because the derived name is computed before
    [_set_no_replace] looks at the context. *)
Theorem BuildContext_init_raises (definition : Value) (kwargs : gmap string Value) :
  (is_Some (kwargs !! "definition") ∨ is_Some (kwargs !! "self") →
   BuildContext_init C definition kwargs = Raise TypeError) ∧
  (∀ e, kwargs !! "definition" = None → kwargs !! "self" = None →
        attr_name C definition = Raise e →
        BuildContext_init C definition kwargs = Raise e).
Proof.
  split.
  - intros Hbad. unfold BuildContext_init.
    destruct Hbad as [H | H]; rewrite (bool_decide_eq_true_2 _ H); [done|].
    by rewrite orb_true_r.
  - intros e Hdef Hself Hname. unfold BuildContext_init.
    rewrite Hdef, Hself.
    rewrite !bool_decide_eq_false_2 by (by intros [? ?]). simpl.
    rewrite init_body_run by (by rewrite lookup_omap, Hdef).
    cbv zeta. by rewrite Hname.
Qed.

(** **** The dictionary interface of the context *)

(** X3: round trips of the item interface. A value stored with
    [__setitem__] is what [__getitem__] and [pop] return; after [pop] the
    key is gone and [__getitem__] raises [KeyError]; [pop] returns what
    [get] would have returned; on a context without the key, [get] and
    [pop] return the default and change nothing, and [__getitem__] raises
    [KeyError] and changes nothing. *)
Theorem context_item_round_trips :
  (∀ key value ctx,
     bind (setitem key value) (λ _, getitem key) ctx = (Ok value, <[key := value]> ctx)) ∧
  (∀ key value dflt ctx,
     bind (setitem key value) (λ _, pop key dflt) ctx = (Ok value, delete key ctx)) ∧
  (∀ key dflt ctx,
     bind (pop key dflt) (λ _, getitem key) ctx = (Raise (KeyError key), delete key ctx)) ∧
  (∀ key dflt ctx, (pop key dflt ctx).1 = (get key dflt ctx).1) ∧
  (∀ key dflt ctx,
     ctx !! key = None →
     get key dflt ctx = (Ok dflt, ctx) ∧
     pop key dflt ctx = (Ok dflt, ctx) ∧
     getitem key ctx = (Raise (KeyError key), ctx)).
Proof.
  split; [|split; [|split; [|split]]].
  - intros key value ctx. unfold bind, setitem, getitem. by rewrite lookup_insert_eq.
  - intros key value dflt ctx. unfold bind, setitem, pop.
    by rewrite lookup_insert_eq, delete_insert_eq.
  - intros key dflt ctx. unfold bind, pop, getitem. by rewrite lookup_delete_eq.
  - done.
  - intros key dflt ctx Hnone. unfold get, pop, getitem. rewrite Hnone.
    by rewrite delete_id.
Qed.

(** X4: who wins when a key is written twice. Of two [_set_no_replace] on
    one key the first wins, and [_set_no_replace] after [__setitem__]
    changes nothing; [__setitem__] and [update] replace what is there, so
    of two [update] the last wins, and [update] with one entry is
    [__setitem__]. *)
Theorem context_writers_compose :
  (∀ key v w ctx,
     bind (_set_no_replace key v) (λ _, _set_no_replace key w) ctx
     = _set_no_replace key v ctx) ∧
  (∀ key v w ctx,
     bind (setitem key v) (λ _, _set_no_replace key w) ctx = setitem key v ctx) ∧
  (∀ key v w ctx,
     bind (_set_no_replace key v) (λ _, setitem key w) ctx = setitem key w ctx) ∧
  (∀ d1 d2 ctx, bind (update d1) (λ _, update d2) ctx = update (d2 ∪ d1) ctx) ∧
  (∀ key v ctx, update {[ key := v ]} ctx = setitem key v ctx).
Proof.
  split; [|split; [|split; [|split]]].
  - intros key v w ctx. unfold bind. rewrite !set_no_replace_insert.
    rewrite lookup_insert_eq. simpl. by rewrite insert_insert_eq.
  - intros key v w ctx. unfold bind, setitem. rewrite set_no_replace_insert.
    rewrite lookup_insert_eq. simpl. by rewrite insert_insert_eq.
  - intros key v w ctx. unfold bind, setitem. rewrite set_no_replace_insert.
    by rewrite insert_insert_eq.
  - intros d1 d2 ctx. unfold bind, update. by rewrite (assoc_L (∪)).
  - intros key v ctx. unfold update, setitem. by rewrite insert_union_singleton_l.
Qed.

(** **** What each stage reads, writes and leaves behind when it fails *)

(** X5: [IRStage._make] returns exactly when the context has [frontend],
    [backend], [options], [qualified_name], [definition] and [externals],
    the backend and the frontend have the three methods and the three
    calls return; the context then has the options id, the stencil id
    computed from that options id (not from an [options_id] the context
    held before), and the IR, and is otherwise as before. *)
Theorem IRStage_make_returns (ctx ctx' : gmap string Value) :
  IRStage__make C ctx = (Ok tt, ctx') ↔
  ∃ frontend backend options qualified_name definition externals options_id id ir,
    ctx !! "frontend" = Some frontend ∧ ctx !! "backend" = Some backend ∧
    ctx !! "options" = Some options ∧ ctx !! "qualified_name" = Some qualified_name ∧
    ctx !! "definition" = Some definition ∧ ctx !! "externals" = Some externals ∧
    getattr C backend "get_options_id" = Ok tt ∧
    getattr C frontend "get_stencil_id" = Ok tt ∧
    getattr C frontend "generate" = Ok tt ∧
    get_options_id C backend options = Ok options_id ∧
    get_stencil_id C frontend qualified_name definition externals options_id = Ok id ∧
    generate C frontend definition externals options = Ok ir ∧
    ctx' = <["ir" := ir]> (<["id" := id]> (<["options_id" := options_id]> ctx)).
Proof.
  unfold IRStage__make, bind, getitem, setitem, lift, get. split.
  - intros H. run_hyp H. simplify_eq. only_tt. by eexists _, _, _, _, _, _, _, _, _.
  - intros (f & b & o & qn & d & e & oid & id & ir & Hf & Hb & Ho & Hqn & Hd & He
             & Ha1 & Ha2 & Ha3 & Hoid & Hid & Hir & ->).
    by run_goal.
Qed.

(** X6: the first failure of [IRStage._make]. It looks up [frontend],
    then [backend], then the method [get_options_id] of the backend, and
    only then [options]: a missing [frontend] or [backend] is the key of
    the [KeyError]; a backend without the method raises the exception of
    that lookup whether or not the context has [options]; a missing
    [options] is the key of the [KeyError] only for a backend that has the
    method. In each case the context is unchanged. *)
Theorem IRStage_missing_key (ctx : gmap string Value) :
  (ctx !! "frontend" = None →
   IRStage__make C ctx = (Raise (KeyError "frontend"), ctx)) ∧
  (is_Some (ctx !! "frontend") → ctx !! "backend" = None →
   IRStage__make C ctx = (Raise (KeyError "backend"), ctx)) ∧
  (∀ backend e,
     is_Some (ctx !! "frontend") → ctx !! "backend" = Some backend →
     getattr C backend "get_options_id" = Raise e →
     IRStage__make C ctx = (Raise e, ctx)) ∧
  (∀ backend,
     is_Some (ctx !! "frontend") → ctx !! "backend" = Some backend →
     getattr C backend "get_options_id" = Ok tt → ctx !! "options" = None →
     IRStage__make C ctx = (Raise (KeyError "options"), ctx)).
Proof.
  unfold IRStage__make, bind, getitem, setitem, lift, get.
  split; [|split; [|split]].
  - by intros ->.
  - by intros [f ->] ->.
  - intros backend e [f ->] -> Hattr. simpl. by rewrite Hattr.
  - intros backend [f ->] -> Hattr ->. simpl. by rewrite Hattr.
Qed.

(** X7: a failing [IRStage._make] does not roll back. The context it
    leaves is the old one, or the old one with the new [options_id], or
    with the new [options_id] and [id]; it never has a new [ir]. *)
Theorem IRStage_failure_keeps_writes (ctx ctx' : gmap string Value) (e : exn) :
  IRStage__make C ctx = (Raise e, ctx') →
  ctx' !! "ir" = ctx !! "ir" ∧
  (ctx' = ctx ∨
   ∃ backend options options_id,
     ctx !! "backend" = Some backend ∧ ctx !! "options" = Some options ∧
     get_options_id C backend options = Ok options_id ∧
     (ctx' = <["options_id" := options_id]> ctx ∨
      ∃ id, ctx' = <["id" := id]> (<["options_id" := options_id]> ctx))).
Proof.
  unfold IRStage__make, bind, getitem, setitem, lift, get.
  intros H. run_hyp H; simplify_eq;
    (split; [by rewrite ?lookup_insert_ne by done|]);
    first [ by left
          | right; eexists _, _, _; split; [done|]; split; [done|]; split; [done|];
            first [ by left | right; by eexists ] ].
Qed.

(** X8: [IIRStage._make] checks the options, with the method
    [_check_options] of the backend, before it looks up the IR, and
    changes the context only when it returns: it then has added the
    implementation IR and nothing else. *)
Theorem IIRStage_make_atomic (ctx : gmap string Value) :
  (∀ e ctx', IIRStage__make C ctx = (Raise e, ctx') → ctx' = ctx) ∧
  (∀ backend options e,
     ctx !! "backend" = Some backend → ctx !! "options" = Some options →
     getattr C backend "_check_options" = Ok tt →
     _check_options C backend options = Raise e →
     IIRStage__make C ctx = (Raise e, ctx)) ∧
  (∀ ctx',
     IIRStage__make C ctx = (Ok tt, ctx') ↔
     ∃ backend options ir iir,
       ctx !! "backend" = Some backend ∧ ctx !! "options" = Some options ∧
       ctx !! "ir" = Some ir ∧
       getattr C backend "_check_options" = Ok tt ∧
       _check_options C backend options = Ok tt ∧ transform C ir options = Ok iir ∧
       ctx' = <["iir" := iir]> ctx).
Proof.
  unfold IIRStage__make, bind, getitem, setitem, lift, get.
  split; [|split].
  - intros e ctx' H. run_hyp H; by simplify_eq.
  - intros backend options e -> -> Hattr Hcheck. simpl. rewrite Hattr. simpl.
    by rewrite Hcheck.
  - intros ctx'. split.
    + intros H. run_hyp H. simplify_eq. only_tt. by eexists _, _, _, _.
    + intros (b & o & ir & iir & Hb & Ho & Hir & Hattr & Hcheck & Htr & ->). by run_goal.
Qed.

Lemma computation_is_not_bindings_cpp (ext : string) : "computation." +:+ ext ≠ "bindings.cpp".
Proof. discriminate. Qed.

Lemma value_pop_removes (v : Value) (k : string) (p : Value * Value) :
  value_pop v k = Ok p → value_contains k p.2 = Ok false.
Proof.
  destruct v; try done. simpl. destruct (d !! k); [|done]. intros [= <-]. simpl.
  rewrite lookup_delete_eq. rewrite bool_decide_eq_false_2; [done | by intros [? ?]].
Qed.

(** X9: after [SourceStage._make_lang_src] has returned, the sources under
    [src] do not contain ["bindings.cpp"]. *)
Theorem lang_src_leaves_no_bindings_in_src (ctx ctx' : gmap string Value) :
  SourceStage__make_lang_src C ctx = (Ok tt, ctx') →
  ∃ src, ctx' !! "src" = Some src ∧ value_contains "bindings.cpp" src = Ok false.
Proof.
  unfold SourceStage__make_lang_src, bind, getitem, setitem, lift, get, when, ret.
  intros H. run_hyp H; simplify_eq; eexists;
    (split; [by repeat first [rewrite lookup_insert_eq | rewrite lookup_insert_ne by done]|]);
    first [ done | by eapply value_pop_removes ].
Qed.

(** The run of [SourceStage._make_lang_src] in the model when every
    lookup and every call returns. *)
Lemma lang_src_run
    (ctx : gmap string Value) (backend id options iir class_name module_name arch
       generator ext : Value) (d bindings_src : gmap string Value) :
  ctx !! "backend" = Some backend → ctx !! "id" = Some id →
  ctx !! "options" = Some options → ctx !! "iir" = Some iir →
  getattr C backend "PYEXT_GENERATOR_CLASS" = Ok tt →
  getattr C backend "get_pyext_class_name" = Ok tt →
  getattr C backend "get_pyext_module_name" = Ok tt →
  get_pyext_class_name C backend id = Ok class_name →
  get_pyext_module_name C backend id = Ok module_name →
  _CPU_ARCHITECTURE C backend = Ok arch →
  PYEXT_GENERATOR_CLASS C backend class_name module_name arch options = Ok generator →
  call_pyext_generator C generator iir = Ok (VDict d) →
  SRC_EXTENSION C backend = Ok ext →
  default (VDict ∅) (ctx !! "bindings_src") = VDict bindings_src →
  let routed := route_computation (py_format C ext) d in
  SourceStage__make_lang_src C ctx =
    (Ok tt,
     match d !! "bindings.cpp" with
     | Some bindings =>
         <["bindings_src" := VDict (<["bindings.cpp" := bindings]> bindings_src)]>
           (<["src" := VDict (delete "bindings.cpp" routed)]> ctx)
     | None => <["src" := VDict routed]> ctx
     end).
Proof.
  intros Hb Hid Ho Hiir Ha1 Ha2 Ha3 Hcn Hmn Harch Hgen Hcall Hext Hbs routed.
  assert (routed !! "bindings.cpp" = d !! "bindings.cpp") as Hrouted.
  { unfold routed, route_computation. destruct (d !! "computation.src"); [|done].
    rewrite lookup_insert_ne by apply computation_is_not_bindings_cpp.
    by rewrite lookup_delete_ne. }
  unfold SourceStage__make_lang_src, bind, getitem, setitem, lift, get, when, ret.
  run_goal. unfold value_contains at 1.
  subst routed. unfold route_computation in *.
  destruct (d !! "computation.src") as [computation|] eqn:Hcomp.
  - rewrite bool_decide_eq_true_2 by by eexists. run_goal.
    unfold value_pop at 1. rewrite Hcomp. run_goal. unfold value_setitem at 1. run_goal.
    unfold value_contains. rewrite Hrouted.
    destruct (d !! "bindings.cpp") as [bindings|] eqn:Hbind.
    + rewrite bool_decide_eq_true_2 by by eexists. run_goal.
      unfold value_pop. rewrite Hrouted. run_goal. rewrite Hbs.
      unfold value_setitem. f_equal. solve_map_eq.
    + rewrite bool_decide_eq_false_2 by (by intros [? ?]). f_equal. solve_map_eq.
  - rewrite bool_decide_eq_false_2 by (by intros [? ?]). run_goal.
    unfold value_contains.
    destruct (d !! "bindings.cpp") as [bindings|] eqn:Hbind.
    + rewrite bool_decide_eq_true_2 by by eexists. run_goal.
      unfold value_pop. rewrite Hbind. run_goal. rewrite Hbs.
      unfold value_setitem. f_equal. solve_map_eq.
    + rewrite bool_decide_eq_false_2 by (by intros [? ?]). done.
Qed.

(** X10: where [SourceStage._make_lang_src] puts the generated files. When
    the lookups and the collaborator calls return, the generator gives the
    dictionary [d] and the context holds a dictionary (or nothing) under
    [bindings_src], the stage returns; [src] then holds [d] with
    ["computation.src"] renamed to ["computation.<ext>"] and without
    ["bindings.cpp"]; the ["bindings.cpp"] source, if there is one, has
    been added to the dictionary under [bindings_src], whose other entries
    stay, and without one [bindings_src] is as it was. A key other than
    these two that holds no dictionary keeps its value. *)
Theorem lang_src_routes_sources
    (ctx : gmap string Value) (backend id options iir class_name module_name arch
       generator ext : Value) (d bindings_src : gmap string Value) :
  ctx !! "backend" = Some backend → ctx !! "id" = Some id →
  ctx !! "options" = Some options → ctx !! "iir" = Some iir →
  getattr C backend "PYEXT_GENERATOR_CLASS" = Ok tt →
  getattr C backend "get_pyext_class_name" = Ok tt →
  getattr C backend "get_pyext_module_name" = Ok tt →
  get_pyext_class_name C backend id = Ok class_name →
  get_pyext_module_name C backend id = Ok module_name →
  _CPU_ARCHITECTURE C backend = Ok arch →
  PYEXT_GENERATOR_CLASS C backend class_name module_name arch options = Ok generator →
  call_pyext_generator C generator iir = Ok (VDict d) →
  SRC_EXTENSION C backend = Ok ext →
  default (VDict ∅) (ctx !! "bindings_src") = VDict bindings_src →
  let routed := route_computation (py_format C ext) d in
  ∃ ctx',
    SourceStage__make_lang_src C ctx = (Ok tt, ctx') ∧
    ctx' !! "src" = Some (VDict (delete "bindings.cpp" routed)) ∧
    ctx' !! "bindings_src" =
      match d !! "bindings.cpp" with
      | Some bindings => Some (VDict (<["bindings.cpp" := bindings]> bindings_src))
      | None => ctx !! "bindings_src"
      end ∧
    (∀ key value,
       key ≠ "src" → key ≠ "bindings_src" →
       ctx !! key = Some value → holds_no_dict value = true → ctx' !! key = Some value).
Proof.
  intros Hb Hid Ho Hiir Ha1 Ha2 Ha3 Hcn Hmn Harch Hgen Hcall Hext Hbs routed.
  eexists. split; [by eapply lang_src_run|]. fold routed.
  assert (routed !! "bindings.cpp" = d !! "bindings.cpp") as Hrouted.
  { unfold routed, route_computation. destruct (d !! "computation.src"); [|done].
    rewrite lookup_insert_ne by apply computation_is_not_bindings_cpp.
    by rewrite lookup_delete_ne. }
  destruct (d !! "bindings.cpp") as [bindings|] eqn:Hbind.
  - split; [by rewrite lookup_insert_ne, lookup_insert_eq by done|].
    split; [by rewrite lookup_insert_eq|].
    intros key value Hsrc Hbsrc Hkey _. by rewrite !lookup_insert_ne by done.
  - rewrite delete_id by done.
    split; [by rewrite lookup_insert_eq|].
    split; [by rewrite lookup_insert_ne by done|].
    intros key value Hsrc Hbsrc Hkey _. by rewrite lookup_insert_ne by done.
Qed.

(** X11: [SourceStage._make] for a backend without bindings languages.
    When it returns, [src] has been replaced by a dictionary with the one
    file ["<name>.py"], the options dictionary has been stored under
    [generator_options], nothing else has changed, and the stage is
    final on the resulting context. *)
Theorem source_stage_python_module
    (ctx ctx' : gmap string Value) (backend languages : Value) :
  ctx !! "backend" = Some backend →
  BINDINGS_LANGUAGES C backend = Ok languages → truthy languages = false →
  SourceStage__make C ctx = (Ok tt, ctx') →
  (∃ options generator_options generator name id iir module,
     ctx !! "options" = Some options ∧ ctx !! "name" = Some name ∧
     ctx !! "id" = Some id ∧ ctx !! "iir" = Some iir ∧
     as_dict C options = Ok generator_options ∧
     GENERATOR_CLASS C backend generator_options = Ok generator ∧
     call_generator C generator id iir = Ok module ∧
     ctx' = <["src" := VDict {[ py_format C name ++ ".py" := module ]}]>
              (<["generator_options" := generator_options]> ctx)) ∧
  (SourceStage_is_final C ctx').1 = Ok true.
Proof.
  intros Hb Hl Hfalsy. unfold SourceStage__make, bind, getitem, lift.
  rewrite Hb. simpl. rewrite Hl, Hfalsy. simpl.
  unfold SourceStage__make_py_module, bind, getitem, setitem, lift, get.
  intros H. run_hyp H. simplify_eq. split.
  - by eexists _, _, _, _, _, _, _.
  - unfold SourceStage_is_final, bind, getitem, lift, get, ret.
    by run_goal.
Qed.

(** X12: what [BindingsStage._make] produces when ["python"] is requested
    and it returns. The generator options are the options dictionary with
    [pyext_module_name], which defaults to ["_<name>"], and
    [pyext_file_path] added; [bindings_src] is replaced by a dictionary
    with the single entry ["python"], which holds the ["bindings.cpp"]
    source that the context carried and the generated ["<name>.py"].
    Nothing else changes. *)
Theorem bindings_stage_python_output (ctx ctx' : gmap string Value) :
  BindingsStage__make C ctx = (Ok tt, ctx') →
  python_requested ctx = true →
  ∃ backend options name file_path id iir as_dict_result generator module,
    ctx !! "backend" = Some backend ∧ ctx !! "options" = Some options ∧
    ctx !! "name" = Some name ∧ ctx !! "pyext_file_path" = Some file_path ∧
    ctx !! "id" = Some id ∧ ctx !! "iir" = Some iir ∧
    as_dict C options = Ok (VDict as_dict_result) ∧
    let generator_options :=
      VDict (<["pyext_file_path" := file_path]>
               (<["pyext_module_name" :=
                    default (VStr ("_" ++ py_format C name)) (ctx !! "pyext_module_name")]>
                  as_dict_result)) in
    GENERATOR_CLASS C backend generator_options = Ok generator ∧
    call_generator C generator id iir = Ok module ∧
    ctx' = <["bindings_src" :=
               VDict {[ "python" :=
                          VDict (<[py_format C name ++ ".py" := module]>
                                   {[ "bindings.cpp" := carried_bindings_cpp ctx ]}) ]}]>
             (<["generator_options" := generator_options]> ctx).
Proof.
  unfold BindingsStage__make, bind, getitem, setitem, lift, get, when, ret, python_requested.
  intros H. run_hyp H; simplify_eq; [|by intros ?].
  intros _. rewrite (value_get_carried _ _ E13).
  destruct a0 as [| | | |go|]; try done. simpl in E7. simplify_eq. simpl in E8. simplify_eq.
  by eexists _, _, _, _, _, _, _, _, _.
Qed.

(** X13: a failing [BindingsStage._make] leaves [bindings_src] as it was;
    the context is the old one, or the old one with the new
    [generator_options]. Without a [bindings] entry the stage raises
    [KeyError] although it is the final stage. *)
Theorem bindings_stage_failure (ctx ctx' : gmap string Value) (e : exn) :
  BindingsStage__make C ctx = (Raise e, ctx') →
  ctx' !! "bindings_src" = ctx !! "bindings_src" ∧
  (ctx' = ctx ∨ ∃ generator_options, ctx' = <["generator_options" := generator_options]> ctx) ∧
  (ctx !! "bindings" = None → e = KeyError "bindings" ∧ ctx' = ctx).
Proof.
  unfold BindingsStage__make, bind, getitem, setitem, lift, get, when, ret.
  intros H. run_hyp H; simplify_eq;
    (split; [by rewrite ?lookup_insert_ne by done|]);
    (split; [first [by left | right; by eexists] | done]).
Qed.

(** **** A build that finishes *)

Lemma IRStage_make_sets (ctx ctx' : gmap string Value) :
  IRStage__make C ctx = (Ok tt, ctx') →
  is_Some (ctx' !! "options_id") ∧ is_Some (ctx' !! "id") ∧ is_Some (ctx' !! "ir").
Proof.
  unfold IRStage__make, bind, getitem, setitem, lift, get.
  intros H. run_hyp H. simplify_eq.
  repeat split; eexists;
    by repeat first [rewrite lookup_insert_eq | rewrite lookup_insert_ne by done].
Qed.

Lemma IIRStage_make_sets (ctx ctx' : gmap string Value) :
  IIRStage__make C ctx = (Ok tt, ctx') → is_Some (ctx' !! "iir").
Proof.
  unfold IIRStage__make, bind, getitem, setitem, lift, get.
  intros H. run_hyp H. simplify_eq. eexists. by rewrite lookup_insert_eq.
Qed.

Lemma SourceStage_make_sets (ctx ctx' : gmap string Value) :
  SourceStage__make C ctx = (Ok tt, ctx') → is_Some (ctx' !! "src").
Proof.
  unfold SourceStage__make, SourceStage__make_py_module, SourceStage__make_lang_src,
    bind, getitem, setitem, lift, get, when, ret.
  intros H. run_hyp H; simplify_eq; eexists;
    by repeat first [rewrite lookup_insert_eq | rewrite lookup_insert_ne by done].
Qed.

Lemma source_stage_is_final_false (ctx : gmap string Value) :
  (SourceStage_is_final C ctx).1 = Ok false ↔
  ∃ backend languages,
    ctx !! "backend" = Some backend ∧ BINDINGS_LANGUAGES C backend = Ok languages ∧
    truthy languages = true ∧ truthy (default VNone (ctx !! "bindings")) = true.
Proof.
  unfold SourceStage_is_final, bind, getitem, lift, get, ret.
  destruct (ctx !! "backend") as [backend|]; simpl;
    [|split; [done | by intros (? & ? & ? & _)]].
  destruct (BINDINGS_LANGUAGES C backend) as [languages|e] eqn:Hl; simpl;
    [|split; [done | intros (? & ? & [= <-] & ? & _); congruence]].
  destruct (truthy languages) eqn:Ht; simpl.
  - destruct (truthy (default VNone (ctx !! "bindings"))) eqn:Hbind; simpl.
    + split; [intros _; by exists backend, languages|done].
    + split; [done|]. intros (? & ? & [= <-] & ? & _ & ?). congruence.
  - split; [done|]. intros (? & ? & [= <-] & Hl' & ? & _). rewrite Hl in Hl'.
    injection Hl' as <-. congruence.
Qed.

(** The runs of [run_pipeline] from [BeginStage] that finish. *)
Lemma finished_run_stages (ctx ctx' : gmap string Value) (trace : list Stage) :
  run_pipeline C 5 BeginStage ctx = (trace, Finished, ctx') →
  ∃ c1 c2 c3,
    _make C IRStage ctx = (Ok tt, c1) ∧ _make C IIRStage c1 = (Ok tt, c2) ∧
    _make C SourceStage c2 = (Ok tt, c3) ∧
    (((SourceStage_is_final C c3).1 = Ok true ∧ ctx' = c3 ∧
     trace = [BeginStage; IRStage; IIRStage; SourceStage]) ∨
     ((SourceStage_is_final C c3).1 = Ok false ∧ _make C BindingsStage c3 = (Ok tt, ctx') ∧
      trace = [BeginStage; IRStage; IIRStage; SourceStage; BindingsStage])).
Proof.
  cbn [run_pipeline].
  rewrite (make_next_not_final BeginStage IRStage) by done.
  destruct (_make C IRStage ctx) as [[[]|e1] c1] eqn:H1; [|done].
  rewrite (make_next_not_final IRStage IIRStage) by done.
  destruct (_make C IIRStage c1) as [[[]|e2] c2] eqn:H2; [|done].
  rewrite (make_next_not_final IIRStage SourceStage) by done.
  destruct (_make C SourceStage c2) as [[[]|e3] c3] eqn:H3; [|done].
  pose proof (source_stage_is_final_frame c3) as Hframe.
  destruct (is_final C SourceStage c3) as [[[|]|e4] c3'] eqn:Hfinal;
    simpl in Hframe, Hfinal; rewrite Hfinal in Hframe; simpl in Hframe; subst c3'.
  - rewrite (make_next_final SourceStage) by done. intros [= <- <-].
    exists c1, c2, c3. repeat (split; [done|]). left. by rewrite Hfinal.
  - rewrite (make_next_not_final SourceStage BindingsStage) by done.
    destruct (_make C BindingsStage c3) as [[[]|e5] c4] eqn:H4; [|done].
    rewrite (make_next_final BindingsStage) by done. intros [= <- <-].
    exists c1, c2, c3. repeat (split; [done|]). right. by rewrite Hfinal.
  - unfold make_next, bind. simpl. by rewrite Hfinal.
Qed.

Lemma make_frames (self : Stage) (ctx ctx' : gmap string Value) (r : result unit) :
  _make C self ctx = (r, ctx') → frames ctx ctx'.
Proof.
  intros H.
  pose proof (proj1 (make_respects frames (λ k v, setitem_frames k v) self) ctx) as Hf.
  by rewrite H in Hf.
Qed.

(** X14: when a build driven from [BeginStage] finishes, the context has
    [options_id], [id], [ir], [iir] and [src]; no key has gone, no key
    that no stage assigns has been added, and every key that no stage
    assigns and that holds no dictionary has the value it had at the
    start. *)
Theorem finished_build_has_products
    (ctx ctx' : gmap string Value) (trace : list Stage) :
  run_pipeline C 5 BeginStage ctx = (trace, Finished, ctx') →
  (∀ key, key ∈ ["options_id"; "id"; "ir"; "iir"; "src"] → is_Some (ctx' !! key)) ∧
  (∀ key, key ∉ stage_written_keys →
     (ctx !! key = None → ctx' !! key = None) ∧
     (∀ value, ctx !! key = Some value → holds_no_dict value = true →
               ctx' !! key = Some value)) ∧
  dom ctx ⊆ dom ctx'.
Proof.
  intros (c1 & c2 & c3 & H1 & H2 & H3 & Hend)%finished_run_stages.
  pose proof (make_frames _ _ _ _ H1) as F1.
  pose proof (make_frames _ _ _ _ H2) as F2.
  pose proof (make_frames _ _ _ _ H3) as F3.
  assert (frames c3 ctx') as F4.
  { destruct Hend as [(_ & -> & _) | (_ & H4 & _)]; [done | by eapply make_frames]. }
  assert (frames ctx ctx') as [Hkeep Hdom] by (by repeat (etransitivity; [eassumption|])).
  split; [|split; [|done]].
  2:{ intros key Hkey. rewrite (Hkeep key Hkey). split; [done | by intros value -> _]. }
  destruct (IRStage_make_sets _ _ H1) as (Hoid & Hid & Hir).
  pose proof (IIRStage_make_sets _ _ H2) as Hiir.
  pose proof (SourceStage_make_sets _ _ H3) as Hsrc.
  assert (∀ (c c' : gmap string Value) key, frames c c' → is_Some (c !! key) → is_Some (c' !! key))
    as Hmono.
  { intros c c' key [_ Hd] Hin. apply elem_of_dom. apply Hd. by apply elem_of_dom. }
  intros key Hkey. apply list_elem_of_In in Hkey. simpl in Hkey.
  destruct Hkey as [<- | [<- | [<- | [<- | [<- | []]]]]].
  - eapply Hmono; [exact F4|]. eapply Hmono; [exact F3|]. by eapply Hmono.
  - eapply Hmono; [exact F4|]. eapply Hmono; [exact F3|]. by eapply Hmono.
  - eapply Hmono; [exact F4|]. eapply Hmono; [exact F3|]. by eapply Hmono.
  - eapply Hmono; [exact F4|]. by eapply Hmono.
  - by eapply Hmono.
Qed.

(** X15: whether a finished build went through [BindingsStage] is decided
    by the context the build started from: it did exactly when the
    [BINDINGS_LANGUAGES] of its backend and its [bindings] entry are both
    truthy. *)
Theorem bindings_stage_runs_iff
    (ctx ctx' : gmap string Value) (trace : list Stage) :
  run_pipeline C 5 BeginStage ctx = (trace, Finished, ctx') →
  BindingsStage ∈ trace ↔
  ∃ backend languages,
    ctx !! "backend" = Some backend ∧ BINDINGS_LANGUAGES C backend = Ok languages ∧
    truthy languages = true ∧ truthy (default VNone (ctx !! "bindings")) = true.
Proof.
  intros (c1 & c2 & c3 & H1 & H2 & H3 & Hend)%finished_run_stages.
  pose proof (make_frames _ _ _ _ H1) as F1.
  pose proof (make_frames _ _ _ _ H2) as F2.
  pose proof (make_frames _ _ _ _ H3) as F3.
  assert (frames ctx c3) as [Hkeep _] by (by repeat (etransitivity; [eassumption|])).
  assert (c3 !! "backend" = ctx !! "backend") as Hb.
  { apply Hkeep. intros Hw. apply list_elem_of_In in Hw. simpl in Hw.
    repeat (destruct Hw as [Hw | Hw]; [discriminate Hw|]). done. }
  assert (c3 !! "bindings" = ctx !! "bindings") as Hbind.
  { apply Hkeep. intros Hw. apply list_elem_of_In in Hw. simpl in Hw.
    repeat (destruct Hw as [Hw | Hw]; [discriminate Hw|]). done. }
  rewrite <- Hb, <- Hbind, <- source_stage_is_final_false.
  destruct Hend as [(Hfinal & _ & ->) | (Hfinal & _ & ->)].
  - split; [|congruence]. intros Hin. apply list_elem_of_In in Hin. simpl in Hin.
    repeat (destruct Hin as [Hin | Hin]; [discriminate Hin|]). done.
  - split; [done|]. intros _. apply list_elem_of_In. simpl. auto 10.
Qed.

End BuildProperties.

(** ** The properties at concrete inputs *)

Section ConcreteCases.
Import Build ModuleGenerator Examples.

Example bare_context_built : BuildContext_init demo (VObj 0) definition_only = Ok bare_context.
Proof. vm_compute. reflexivity. Qed.

Example full_build_finishes :
  ∃ ctx ctx',
    BuildContext_init demo (VObj 0) request = Ok ctx ∧
    run_pipeline demo 5 BeginStage ctx
      = ([BeginStage; IRStage; IIRStage; SourceStage; BindingsStage], Finished, ctx') ∧
    bindings_cpp_of (default VNone (ctx' !! "bindings_src")) = VStr "PYBIND11_MODULE".
Proof. eexists _, _. repeat split; vm_compute; reflexivity. Qed.

(** C3 as stated fails: the field [a] of [unreferenced_field_ir] is a
    declared field argument without any write access, yet the function
    records [None] for it and no [FieldInfo], hence no access kind. *)
Lemma unreferenced_field_gets_no_access_kind :
  {| name := "a"; is_keyword := false |} ∈ api_signature unreferenced_field_ir ∧
  is_Some (fields unreferenced_field_ir !! "a") ∧
  ¬ has_write_access unreferenced_field_ir "a" ∧
  make_args_data_from_iir (λ _, tt) (λ _, tt) unreferenced_field_ir
    = Ok {| field_info := [("a", None)]; parameter_info := [];
            md_unreferenced := {[ "a" ]} |} ∧
  ¬ ∃ data info,
      make_args_data_from_iir (λ _ : unit, tt) (λ _ : unit, tt) unreferenced_field_ir = Ok data ∧
      dict_lookup (field_info data) "a" = Some (Some info) ∧
      access info = AccessKind.READ_ONLY.
Proof.
  assert (make_args_data_from_iir (λ _ : unit, tt) (λ _ : unit, tt) unreferenced_field_ir
          = Ok {| field_info := [("a", None)]; parameter_info := [];
                  md_unreferenced := {[ "a" ]} |}) as Hmake
    by (vm_compute; reflexivity).
  split; [apply list_elem_of_here|]. split; [by eexists|]. split; [|split; [exact Hmake|]].
  - intros (ms & _ & _ & _ & Hms & _). simpl in Hms. by apply elem_of_nil in Hms.
  - intros (data & info & Hdata & Hlookup & _). rewrite Hmake in Hdata.
    injection Hdata as <-. discriminate Hlookup.
Qed.

Lemma copy_ir_declarations_complete : declarations_complete copy_ir.
Proof.
  intros arg Hin _. simpl in Hin.
  apply elem_of_cons in Hin as [-> | Hin];
    [|apply list_elem_of_singleton in Hin as ->]; vm_compute; by eexists.
Qed.

(** The amended C3 at the written field [out] of [copy_ir]. *)
Lemma field_access_kind_spec_witness :
  ∃ data,
    make_args_data_from_iir (λ _ : unit, tt) (λ _ : unit, tt) copy_ir = Ok data ∧
    if bool_decide ("out" ∈ unreferenced copy_ir)
    then dict_lookup (field_info data) "out" = Some None
    else ∃ info,
           dict_lookup (field_info data) "out" = Some (Some info) ∧
           access info = access_kind_of (collect_out_fields copy_ir)
                           {| name := "out"; is_keyword := false |}.
Proof.
  apply (proj2 (proj2 (field_access_kind_spec (λ _ : unit, tt) (λ _ : unit, tt) copy_ir
           {| name := "out"; is_keyword := false |}))).
  - exact copy_ir_declarations_complete.
  - simpl. apply list_elem_of_further, list_elem_of_here.
  - vm_compute. by eexists.
Defined.

Lemma mixed_ir_declarations_complete : declarations_complete mixed_ir.
Proof.
  intros arg Hin Hunref. apply list_elem_of_In in Hin. simpl in Hin.
  destruct Hin as [<- | [<- | [<- | [<- | [<- | []]]]]].
  - vm_compute. by exists tt.
  - exfalso. apply Hunref. apply (bool_decide_unpack _). vm_compute. exact I.
  - vm_compute. by exists {| vd_data_type := tt |}.
  - exfalso. apply Hunref. apply (bool_decide_unpack _). vm_compute. exact I.
  - vm_compute. by exists tt.
Qed.

(** C4 as stated fails: [a] is an unreferenced argument of
    [missing_extent_ir], but the referenced field [out] has no extent, so
    the function raises [KeyError] and returns no data in which [a] could
    have its [None] entry. *)
Lemma unreferenced_argument_gets_no_marker :
  {| name := "a"; is_keyword := false |} ∈ api_signature missing_extent_ir ∧
  "a" ∈ unreferenced missing_extent_ir ∧
  make_args_data_from_iir (λ _ : unit, tt) (λ _ : unit, tt) missing_extent_ir
    = Raise (KeyError "out") ∧
  ¬ ∃ data,
      make_args_data_from_iir (λ _ : unit, tt) (λ _ : unit, tt) missing_extent_ir = Ok data ∧
      dict_lookup (field_info data) "a" = Some None.
Proof.
  assert (make_args_data_from_iir (λ _ : unit, tt) (λ _ : unit, tt) missing_extent_ir
          = Raise (KeyError "out")) as Hmake by (vm_compute; reflexivity).
  split; [apply list_elem_of_here|].
  split; [apply (bool_decide_unpack _); vm_compute; exact I|].
  split; [exact Hmake|].
  intros (data & Hdata & _). rewrite Hmake in Hdata. discriminate Hdata.
Qed.

(** The amended C4 at [mixed_ir]: the unreferenced field and the
    unreferenced parameter stand between and after referenced arguments
    and keep their places. *)
Lemma unreferenced_arguments_keep_their_place_witness :
  ∃ data,
    make_args_data_from_iir (λ _ : unit, tt) (λ _ : unit, tt) mixed_ir = Ok data ∧
    field_names data = ["inp"; "unused"; "out"] ∧
    parameter_names data = ["scale"; "dt"] ∧
    dict_lookup (field_info data) "unused" = Some None ∧
    dict_lookup (parameter_info data) "dt" = Some None.
Proof.
  destruct (unreferenced_arguments_keep_their_place (λ _ : unit, tt) (λ _ : unit, tt)
              mixed_ir mixed_ir_declarations_complete)
    as (data & Hmake & Hnone & Hfields & Hparameters & _).
  exists data. split; [exact Hmake|].
  split; [rewrite Hfields; vm_compute; reflexivity|].
  split; [rewrite Hparameters; vm_compute; reflexivity|].
  split.
  - apply (Hnone {| name := "unused"; is_keyword := false |}).
    + apply list_elem_of_further, list_elem_of_here.
    + apply (bool_decide_unpack _). vm_compute. exact I.
  - apply (Hnone {| name := "dt"; is_keyword := true |}).
    + do 3 apply list_elem_of_further. apply list_elem_of_here.
    + apply (bool_decide_unpack _). vm_compute. exact I.
Defined.

(** C5 as stated fails: the context built from a definition alone has no
    frontend, so the first [make_next()] raises [KeyError] and no final
    stage is reached, however often [make_next()] may be called. *)
Lemma pipeline_aborts_without_frontend :
  BuildContext_init demo (VObj 0) definition_only = Ok bare_context ∧
  run_pipeline demo 5 BeginStage bare_context
    = ([BeginStage], Aborted (KeyError "frontend"), bare_context) ∧
  ∀ fuel, (run_pipeline demo fuel BeginStage bare_context).1.2 ≠ Finished.
Proof.
  assert (make_next demo BeginStage bare_context
          = (Raise (KeyError "frontend"), bare_context)) as Hnext
    by (vm_compute; reflexivity).
  split; [vm_compute; reflexivity|]. split; [vm_compute; reflexivity|].
  intros [|fuel]; cbn [run_pipeline]; [done|]. by rewrite Hnext.
Qed.

(** C7 as stated fails: on a context that carries the bindings source of
    the extension, [BindingsStage.make()] returns, and a second run on the
    resulting context returns a different context, in which the
    ["bindings.cpp"] source is the empty string. *)
Lemma bindings_stage_rerun_differs :
  let once := (make demo BindingsStage context_for_bindings).2 in
  let twice := (make demo BindingsStage once).2 in
  make demo BindingsStage context_for_bindings = (Ok BindingsStage, once) ∧
  make demo BindingsStage once = (Ok BindingsStage, twice) ∧
  bindings_cpp_of (default VNone (once !! "bindings_src")) = VStr "PYBIND11_MODULE" ∧
  bindings_cpp_of (default VNone (twice !! "bindings_src")) = VStr "" ∧
  once ≠ twice.
Proof.
  intros once twice.
  assert (bindings_cpp_of (default VNone (once !! "bindings_src")) = VStr "PYBIND11_MODULE")
    as Honce by (vm_compute; reflexivity).
  assert (bindings_cpp_of (default VNone (twice !! "bindings_src")) = VStr "")
    as Htwice by (vm_compute; reflexivity).
  split; [vm_compute; reflexivity|]. split; [vm_compute; reflexivity|].
  split; [done|]. split; [done|].
  intros Heq. rewrite Heq, Htwice in Honce. discriminate Honce.
Qed.

(** The amended C7 at [IRStage] on the context of a build request. *)
Lemma make_again_witness :
  let ctx := <["frontend" := VObj 1]> (<["backend" := VObj 2]> bare_context) in
  let ctx' := (make demo IRStage ctx).2 in
  make demo IRStage ctx = (Ok IRStage, ctx') ∧
  (make demo IRStage ctx' = (Ok IRStage, ctx') ↔
   (IRStage = BindingsStage →
    python_requested ctx = false ∨ carried_bindings_cpp ctx = VStr "")).
Proof.
  intros ctx ctx'.
  assert (make demo IRStage ctx = (Ok IRStage, ctx')) as Hmake by (vm_compute; reflexivity).
  split; [exact Hmake|]. exact (make_again demo IRStage ctx ctx' Hmake).
Defined.

(** C8 at a constructor call that supplies [name], and at [SourceStage]
    on the context of that call. *)
Lemma context_keys_first_writer_wins_witness :
  ∃ ctx, BuildContext_init demo (VObj 0) {[ "name" := VStr "mine" ]} = Ok ctx ∧
         ctx !! "name" = Some (VStr "mine") ∧
         (make demo SourceStage ctx).2 !! "name" = Some (VStr "mine").
Proof.
  eexists. split; [vm_compute; reflexivity|].
  assert (∀ ctx, BuildContext_init demo (VObj 0) {[ "name" := VStr "mine" ]} = Ok ctx →
                 ctx !! "name" = Some (VStr "mine")) as Hname.
  { intros ctx Hctx.
    eapply (proj1 (context_keys_first_writer_wins demo) (VObj 0) {[ "name" := VStr "mine" ]});
      [exact Hctx | reflexivity | discriminate]. }
  split.
  - apply Hname. vm_compute. reflexivity.
  - apply (proj1 (proj2 (proj2 (context_keys_first_writer_wins demo))) SourceStage).
    + intros Hin. apply list_elem_of_In in Hin. simpl in Hin.
      repeat (destruct Hin as [Hin | Hin]; [discriminate Hin|]). exact Hin.
    + apply Hname. vm_compute. reflexivity.
    + reflexivity.
Defined.

(** C10 at a context that asks for other bindings only. *)
Lemma bindings_stage_without_python_is_noop_witness :
  let ctx : gmap string Value := {[ "bindings" := VList [VStr "cuda"] ]} in
  BindingsStage__make demo ctx = (Ok tt, ctx) ∧
  make demo BindingsStage ctx = (Ok BindingsStage, ctx).
Proof.
  intros ctx.
  apply (bindings_stage_without_python_is_noop demo ctx [VStr "cuda"]).
  - reflexivity.
  - intros Hin. apply list_elem_of_singleton in Hin. discriminate Hin.
Defined.

(** *** The further properties at concrete inputs *)

Example request_context_built :
  BuildContext_init demo (VObj 0) request = Ok request_context.
Proof. vm_compute. reflexivity. Qed.

Example context_for_source_reached :
  (run_pipeline demo 2 BeginStage request_context).2 = context_for_source.
Proof. vm_compute. reflexivity. Qed.

(** X1 at the build request: the qualified name is derived, and a key the
    constructor does not know is kept. *)
Lemma BuildContext_init_postcondition_witness :
  BuildContext_init demo (VObj 0) request = Ok request_context ∧
  request_context !! "qualified_name" = Some (VStr "stencils.copy_stencil") ∧
  request_context !! "frontend" = request !! "frontend".
Proof.
  assert (BuildContext_init demo (VObj 0) request = Ok request_context) as H
    by (vm_compute; reflexivity).
  split; [exact H|].
  destruct (BuildContext_init_postcondition demo (VObj 0) request request_context H)
    as (n & o & m & nm & bi & Hn & -> & -> & -> & _ & _ & _ & _ & _ & Hqn & _ & _ & Hother).
  split.
  - rewrite Hqn. simpl in Hn. injection Hn as <-. vm_compute. reflexivity.
  - rewrite Hother; [reflexivity|]. intros Hin. apply list_elem_of_In in Hin. simpl in Hin.
    repeat (destruct Hin as [Hin | Hin]; [discriminate Hin|]). exact Hin.
Defined.

(** X6 at a context whose backend is [None] and that has no options: the
    lookup of the method fails first. *)
Lemma IRStage_missing_key_witness :
  let ctx : gmap string Value := {[ "frontend" := VObj 1; "backend" := VNone ]} in
  ctx !! "options" = None ∧
  IRStage__make demo ctx = (Raise AttributeError, ctx).
Proof.
  intros ctx. split; [reflexivity|].
  apply (proj1 (proj2 (proj2 (IRStage_missing_key demo ctx))) VNone AttributeError).
  - exists (VObj 1). vm_compute. reflexivity.
  - vm_compute. reflexivity.
  - reflexivity.
Defined.

(** X7 at a frontend whose [get_stencil_id] raises: the options id stays
    in the context. *)
Lemma IRStage_failure_keeps_writes_witness :
  let after := (IRStage__make failing_stencil_id request_context).2 in
  IRStage__make failing_stencil_id request_context = (Raise (CollaboratorError 1), after) ∧
  request_context !! "options_id" = None ∧
  after !! "options_id" = Some (VStr "opts") ∧
  after !! "ir" = request_context !! "ir".
Proof.
  intros after.
  assert (IRStage__make failing_stencil_id request_context
          = (Raise (CollaboratorError 1), after)) as H by (vm_compute; reflexivity).
  split; [exact H|]. split; [reflexivity|]. split; [vm_compute; reflexivity|].
  exact (proj1 (IRStage_failure_keeps_writes failing_stencil_id request_context after _ H)).
Defined.

(** X9 and X10 at the context that [IIRStage] leaves under [demo]. *)
Lemma lang_src_leaves_no_bindings_in_src_witness :
  let after := (SourceStage__make_lang_src demo context_for_source).2 in
  ∃ src, after !! "src" = Some src ∧ value_contains "bindings.cpp" src = Ok false.
Proof.
  intros after.
  apply (lang_src_leaves_no_bindings_in_src demo context_for_source after).
  vm_compute. reflexivity.
Defined.

Lemma lang_src_routes_sources_witness :
  let ctx := <["bindings_src" := VDict {[ "notes.txt" := VStr "keep" ]}]> context_for_source in
  ∃ ctx',
    SourceStage__make_lang_src demo ctx = (Ok tt, ctx') ∧
    ctx' !! "src" = Some (VDict {[ "computation.cpp" := VStr "void run();" ]}) ∧
    ctx' !! "bindings_src" =
      Some (VDict {[ "bindings.cpp" := VStr "PYBIND11_MODULE";
                     "notes.txt" := VStr "keep" ]}) ∧
    ctx' !! "name" = Some (VStr "copy_stencil").
Proof.
  intros ctx.
  destruct (lang_src_routes_sources demo ctx (VObj 2) (VStr "stencil_id")
              (VObj 10) (VObj 30) (VStr "copy_stencil_pyext") (VStr "_copy_stencil")
              (VStr "x86") (VObj 40) (VStr "cpp")
              {[ "computation.src" := VStr "void run();";
                 "bindings.cpp" := VStr "PYBIND11_MODULE" ]}
              {[ "notes.txt" := VStr "keep" ]})
    as (ctx' & Hrun & Hsrc & Hbindings & Hkeep); [vm_compute; reflexivity..|].
  exists ctx'. split; [exact Hrun|].
  split; [rewrite Hsrc; vm_compute; reflexivity|].
  split; [rewrite Hbindings; vm_compute; reflexivity|].
  apply Hkeep; [discriminate | discriminate | vm_compute; reflexivity | reflexivity].
Defined.

(** X11 at a backend without bindings languages. *)
Lemma source_stage_python_module_witness :
  let after := (SourceStage__make python_backend context_for_source).2 in
  after !! "src" = Some (VDict {[ "copy_stencil.py" := VStr "import _copy_stencil" ]}) ∧
  (SourceStage_is_final python_backend after).1 = Ok true.
Proof.
  intros after. split; [vm_compute; reflexivity|].
  apply (source_stage_python_module python_backend context_for_source after
           (VObj 2) (VList [])); vm_compute; reflexivity.
Defined.

(** X12 at the context that [SourceStage] leaves for [BindingsStage]. *)
Lemma bindings_stage_python_output_witness :
  let after := (BindingsStage__make demo context_for_bindings).2 in
  ∃ module,
    after !! "bindings_src" =
      Some (VDict {[ "python" :=
                       VDict (<["copy_stencil.py" := module]>
                                {[ "bindings.cpp" := VStr "PYBIND11_MODULE" ]}) ]}).
Proof.
  intros after.
  destruct (bindings_stage_python_output demo context_for_bindings after)
    as (b & o & nm & fp & i & ir & adr & g & m & _ & _ & Hname & _ & _ & _ & _ & _ & _ & Hafter).
  - vm_compute. reflexivity.
  - vm_compute. reflexivity.
  - exists m. rewrite Hafter, lookup_insert_eq.
    vm_compute in Hname. injection Hname as <-. vm_compute. reflexivity.
Defined.

(** X13 at a context without [id]: the stage fails after it has stored the
    generator options. *)
Lemma bindings_stage_failure_witness :
  let ctx := delete "id" context_for_bindings in
  let after := (BindingsStage__make demo ctx).2 in
  BindingsStage__make demo ctx = (Raise (KeyError "id"), after) ∧
  ctx !! "generator_options" = None ∧ is_Some (after !! "generator_options") ∧
  after !! "bindings_src" = ctx !! "bindings_src".
Proof.
  intros ctx after.
  assert (BindingsStage__make demo ctx = (Raise (KeyError "id"), after)) as H
    by (vm_compute; reflexivity).
  split; [exact H|]. split; [vm_compute; reflexivity|].
  split; [vm_compute; by eexists|].
  exact (proj1 (bindings_stage_failure demo ctx after _ H)).
Defined.

(** X14 and X15 at the build request. *)
Lemma finished_build_has_products_witness :
  let run := run_pipeline demo 5 BeginStage request_context in
  run.1.2 = Finished ∧ is_Some (run.2 !! "src") ∧
  run.2 !! "qualified_name" = request_context !! "qualified_name".
Proof.
  intros run.
  assert (run_pipeline demo 5 BeginStage request_context = (run.1.1, Finished, run.2)) as H
    by (vm_compute; reflexivity).
  destruct (finished_build_has_products demo request_context run.2 run.1.1 H)
    as (Hkeys & Hkeep & _).
  split; [vm_compute; reflexivity|]. split.
  - apply Hkeys. apply list_elem_of_In. simpl. auto 10.
  - assert (request_context !! "qualified_name" = Some (VStr "stencils.copy_stencil")) as Hqn
      by (vm_compute; reflexivity).
    rewrite Hqn. apply (Hkeep "qualified_name"); [|exact Hqn | reflexivity].
    intros Hin. apply list_elem_of_In in Hin. simpl in Hin.
    repeat (destruct Hin as [Hin | Hin]; [discriminate Hin|]). exact Hin.
Defined.

Lemma bindings_stage_runs_iff_witness :
  BindingsStage ∈ (run_pipeline demo 5 BeginStage request_context).1.1 ↔
  ∃ backend languages,
    request_context !! "backend" = Some backend ∧
    BINDINGS_LANGUAGES demo backend = Ok languages ∧
    truthy languages = true ∧
    truthy (default VNone (request_context !! "bindings")) = true.
Proof.
  apply (bindings_stage_runs_iff demo request_context
           (run_pipeline demo 5 BeginStage request_context).2).
  vm_compute. reflexivity.
Defined.

Example copy_ir_returns :
  make_args_data_from_iir (λ _ : unit, tt) (λ _ : unit, tt) copy_ir = Ok copy_ir_data.
Proof. vm_compute. reflexivity. Qed.

(** X16 at the written field [out] of [copy_ir]. *)
Lemma referenced_argument_info_witness :
  dict_lookup (field_info copy_ir_data) "out" =
    Some (Some {| access := AccessKind.READ_WRITE; boundary := tt; axes := tt;
                  fi_dtype := tt |}) ∧
  dict_lookup (parameter_info copy_ir_data) "out" = None.
Proof.
  pose proof (referenced_argument_info (λ _ : unit, tt) (λ _ : unit, tt) copy_ir
                copy_ir_data {| name := "out"; is_keyword := false |}) as W.
  cbn [name] in W.
  assert (fields copy_ir !! "out" = Some {| fd_axes := tt; fd_data_type := tt |}) as Hf
    by (vm_compute; reflexivity).
  rewrite Hf in W.
  destruct W as (extent & _ & Hfield & Hparam).
  - vm_compute. reflexivity.
  - simpl. apply list_elem_of_further, list_elem_of_here.
  - simpl. apply not_elem_of_empty.
  - split; [|exact Hparam]. rewrite Hfield. destruct extent. vm_compute. reflexivity.
Defined.

(** X17 at [copy_ir]: its two fields are the field names, once each, and
    it has no parameter. *)
Lemma info_keys_partition_signature_witness :
  NoDup (field_names copy_ir_data) ∧
  (∀ n, n ∈ field_names copy_ir_data → n ∉ parameter_names copy_ir_data).
Proof.
  destruct (info_keys_partition_signature (λ _ : unit, tt) (λ _ : unit, tt) copy_ir
              copy_ir_data) as (Hnodup & _ & _ & _ & Hdisjoint).
  - vm_compute. reflexivity.
  - split; [exact Hnodup | exact Hdisjoint].
Defined.

(** X18 at [copy_ir] without the extent of [out]. *)
Lemma make_args_data_from_iir_raises_witness :
  make_args_data_from_iir (λ _ : unit, tt) (λ _ : unit, tt) copy_ir_without_extent
    = Raise (KeyError "out") ∧
  ∃ arg,
    arg ∈ api_signature copy_ir_without_extent ∧
    (name arg ∉ unreferenced copy_ir_without_extent) ∧
    KeyError "out" = KeyError (name arg) ∧
    match fields copy_ir_without_extent !! name arg with
    | Some _ => fields_extents copy_ir_without_extent !! name arg = None
    | None => parameters copy_ir_without_extent !! name arg = None
    end.
Proof.
  assert (make_args_data_from_iir (λ _ : unit, tt) (λ _ : unit, tt) copy_ir_without_extent
          = Raise (KeyError "out")) as H by (vm_compute; reflexivity).
  split; [exact H|].
  exact (make_args_data_from_iir_raises (λ _ : unit, tt) (λ _ : unit, tt)
           copy_ir_without_extent (KeyError "out") H).
Defined.

(** X19 at [copy_ir] and the same stencil with its accessors regrouped. *)
Lemma result_depends_on_written_fields_witness :
  make_args_data_from_iir (λ _ : unit, tt) (λ _ : unit, tt) copy_ir =
  make_args_data_from_iir (λ _ : unit, tt) (λ _ : unit, tt) copy_ir_regrouped.
Proof.
  apply result_depends_on_written_fields; try reflexivity.
  intros f. rewrite <- !collect_out_fields_spec.
  assert (collect_out_fields copy_ir = collect_out_fields copy_ir_regrouped) as ->
    by (vm_compute; reflexivity).
  reflexivity.
Defined.

(** X20 at the signature [copy(inp, out, *, scale=1.0)], declared with the
    keyword argument between the positional ones. *)
Lemma generate_signature_layout_witness :
  generate_signature copy_default (λ _ : string, copy_signature) bound_generator
    = Ok "inp, out, *, scale=1.0".
Proof.
  etransitivity.
  - apply (generate_signature_layout copy_default (λ _ : string, copy_signature)
             bound_generator "CopyStencil"). reflexivity.
  - vm_compute. reflexivity.
Defined.

(** The run arguments of [mixed(inp, unused, scale, dt, out)] with the
    API fields [inp], [unused] and [out]. *)
Example run_args_of_mixed_ir :
  run_args (unreferenced mixed_ir) ["inp"; "unused"; "out"] (api_signature mixed_ir) =
    ["inp"; "list(_origin_['inp'])"; "scale"; "out"; "list(_origin_['out'])"].
Proof. vm_compute. reflexivity. Qed.

(** X23 at a call that passes both keyword arguments and no builder. *)
Lemma PyExt_call_unbound_witness :
  PyExtModuleGenerator_call (λ b : string, b) (λ _, copy_signature) (λ _, ["inp"; "out"])
      (λ _, true) (λ _, true) (String.concat newline) (λ s, s)
      (λ _ _ imports _ implementation, Ok (imports ++ implementation))
      PyExtModuleGenerator_init copy_ir_data None
      {[ "pyext_module_name" := "_copy_stencil";
         "pyext_file_path" := "/build/_copy_stencil.so" ]} =
    (Raise (RuntimeError "Builder attribute not initialized!"),
     {| base := {| _builder := None; args_data := copy_ir_data |};
        pyext_module_name := "_copy_stencil";
        pyext_file_path := "/build/_copy_stencil.so" |}).
Proof.
  apply (PyExt_call_unbound (λ b : string, b) (λ _, copy_signature) (λ _, ["inp"; "out"])
           (λ _, true) (λ _, true) (String.concat newline) (λ s, s)
           (λ _ _ imports _ implementation, Ok (imports ++ implementation))
           copy_ir_data
           {[ "pyext_module_name" := "_copy_stencil";
              "pyext_file_path" := "/build/_copy_stencil.so" ]}
           "_copy_stencil" "/build/_copy_stencil.so");
    vm_compute; reflexivity.
Defined.

End ConcreteCases.
